(** * example-sqldb: the query dispatcher and the polling controller

    A shallow embedding of [src/index.ts]: the [DbClient] class with its
    round-robin counter, and the page logic of [preparePage] (guarded status
    polling, query submission, timer toggle) as handlers over an explicit
    page state.  One handler application is one turn of the browser's event
    loop: the task itself followed by the promise callbacks it makes ready.

    The second revision of the file in the sources has no round-robin
    counter and asks the library for the status of all nodes in one call;
    its [updateStatus], [submitQueries] and listeners are those modelled
    here, up to the address that the [catch] callback passes to
    [genErrorStatus].  Status payloads are taken as well-typed records.
    The output panel is a textarea: the model keeps what its value reads. *)

From Stdlib Require Import ZArith List String Ascii Bool Lia.
From Stdlib Require Import DecimalString.
Import ListNotations.

Local Open Scope string_scope.
Local Open Scope Z_scope.

(** ** JavaScript values used by the code *)

Module Js.

(** A JS number as the code uses it: an integer, or NaN.  Every integer
    that occurs is below the length of an array, so double precision
    arithmetic is exact on it. *)
Inductive number : Type :=
| Num (z : Z)
| NaN.

Definition add (a b : number) : number :=
  match a, b with
  | Num x, Num y => Num (x + y)
  | _, _ => NaN
  end.

(** [a % b]: the remainder takes the sign of the dividend; [x % 0] is NaN. *)
Definition rem (a b : number) : number :=
  match a, b with
  | Num x, Num y => if y =? 0 then NaN else Num (Z.rem x y)
  | _, _ => NaN
  end.

(** [arr[i]]: [undefined] (here [None]) outside the array and at NaN. *)
Definition index {A : Type} (arr : list A) (i : number) : option A :=
  match i with
  | Num z => if z <? 0 then None else nth_error arr (Z.to_nat z)
  | NaN => None
  end.

(** The state of a promise once it has settled. *)
Inductive settled (V E : Type) : Type :=
| Fulfilled (v : V)
| Rejected (e : E).
Arguments Fulfilled {V E} v.
Arguments Rejected {V E} e.

(** Strings are sequences of code units; one [ascii] stands for one unit. *)
Definition len (s : string) : Z := Z.of_nat (String.length s).

Definition clamp (s : string) (i : Z) : nat :=
  Z.to_nat (Z.min (Z.max i 0) (len s)).

(** [s.substring(a, b)]: both ends clamped to [0, length], swapped when
    [a > b]. *)
Definition substring (s : string) (a b : Z) : string :=
  let a' := clamp s a in
  let b' := clamp s b in
  String.substring (Nat.min a' b') (Nat.max a' b' - Nat.min a' b') s.

(** [s.split(c)] for a one-character separator. *)
Fixpoint split (c : ascii) (s : string) : list string :=
  match s with
  | EmptyString => [EmptyString]
  | String a rest =>
      if Ascii.eqb a c then EmptyString :: split c rest
      else match split c rest with
           | [] => [String a EmptyString]
           | w :: ws => String a w :: ws
           end
  end.

(** [s.replace(pat, rep)] for a string pattern: the first occurrence only.
    [rep] holds no dollar sign here, so it is inserted as it is. *)
Definition replace (pat rep s : string) : string :=
  match String.index 0 pat s with
  | Some i =>
      String.substring 0 i s ++ rep
        ++ String.substring (i + String.length pat)
             (String.length s - (i + String.length pat)) s
  | None => s
  end.

(** [arr.join(sep)] on an array of strings. *)
Fixpoint join (sep : string) (l : list string) : string :=
  match l with
  | [] => EmptyString
  | [x] => x
  | x :: rest => x ++ sep ++ join sep rest
  end.

End Js.

Import Js.

(** ** The query dispatcher: class [DbClient] *)

Section Dispatcher.

(** One entry of [session.workerSessions]: the library's handle of one node. *)
Context {WorkerSession : Type}.

Record AppSession : Type := { workerSessions : list WorkerSession }.

Record DbClient : Type := {
  appSession : AppSession;
  size : number;
  counter : number
}.

(** A call into the cluster library. *)
Inductive Call : Type :=
| Invoke (w : WorkerSession) (q : string)
| GetWorkerStatus (w : WorkerSession).

(** The promise [workerSession.session.invoke(q).result()], named by the
    request it stands for. *)
Record Pending : Type := { target : WorkerSession; query : string }.

(** [new DbClient(session)] *)
Definition constructor (session : AppSession) : DbClient :=
  {| appSession := session;
     size := Num (Z.of_nat (List.length (workerSessions session)));
     counter := Num 0 |}.

(** [nextNodeIndex()]: the counter is advanced first and then returned. *)
Definition nextNodeIndex (c : DbClient) : DbClient * number :=
  let k := rem (add (counter c) (Num 1)) (size c) in
  ({| appSession := appSession c; size := size c; counter := k |}, k).

(** What one call of [submitQuery] does besides updating the client:
    the index it selected, the lines it logged, and what the returned
    promise settles to ([Rejected tt] is the TypeError of reading
    [.session] of [undefined]). *)
Record Submitted : Type := {
  selected : number;
  logged : list string;
  returned : settled (list Pending) unit
}.

(** [submitQuery(queries)].  The body has no [await]: it runs to its end
    when it is called. *)
Definition submitQuery (c : DbClient) (queries : list string)
  : DbClient * Submitted :=
  let (c', k) := nextNodeIndex c in
  match index (workerSessions (appSession c')) k with
  | Some w =>
      (c', {| selected := k;
              logged := map (fun q => "query: " ++ q) queries;
              returned :=
                Fulfilled (map (fun q => {| target := w; query := q |}) queries) |})
  | None =>
      match queries with
      | [] => (c', {| selected := k; logged := []; returned := Fulfilled [] |})
      | q :: _ =>
          (c', {| selected := k; logged := ["query: " ++ q];
                  returned := Rejected tt |})
      end
  end.

(** The library calls made by one [submitQuery]: one [invoke] per pending
    result, in order. *)
Definition invocations (r : Submitted) : list Call :=
  match returned r with
  | Fulfilled ps => map (fun p => Invoke (target p) (query p)) ps
  | Rejected _ => []
  end.

(** [status(appId)] asks every node, in the order of the session set, and
    hands the promises to [Promise.all].  (The second argument of
    [getWorkerStatus], [parseInt(appId)], is the same in every call.) *)
Definition status (c : DbClient) : list Call :=
  map GetWorkerStatus (workerSessions (appSession c)).

(** A run of successive [submitQuery] calls, one per batch. *)
Fixpoint submitAll (c : DbClient) (batches : list (list string))
  : DbClient * list Submitted :=
  match batches with
  | [] => (c, [])
  | qs :: rest =>
      let (c1, r) := submitQuery c qs in
      let (c2, rs) := submitAll c1 rest in
      (c2, r :: rs)
  end.

(** The client is as the constructor and [nextNodeIndex] leave it over a
    session set that is not empty. *)
Definition well_formed (c : DbClient) : Prop :=
  exists z,
    counter c = Num z /\
    size c = Num (Z.of_nat (List.length (workerSessions (appSession c)))) /\
    0 <= z < Z.of_nat (List.length (workerSessions (appSession c))).

End Dispatcher.

(** ** Rendering of node status *)

Definition dq : string := String "034"%char EmptyString.
Definition lf : string := String "010"%char EmptyString.
Definition cr : string := String "013"%char EmptyString.

Fixpoint spaces (n : nat) : string :=
  match n with
  | O => EmptyString
  | S k => String " "%char (spaces k)
  end.

Definition attr (name value : string) : string := name ++ "=" ++ dq ++ value ++ dq.

(** interface [Status] *)
Record Status : Type := {
  addr : string;
  block_hash : string;
  app_hash : string;
  block_height : Z
}.

(** A number between the braces of a template literal. *)
Definition show (z : Z) : string := NilZero.string_of_int (Z.to_int z).

Definition block_open : string :=
  "<div " ++ attr "class" "m-2 rounded border list-group-item-info p-2" ++ ">" ++ lf
  ++ spaces 16 ++ "<label " ++ attr "class" "text-dark ml-2 mb-0" ++ " "
  ++ attr "style" "font-size: 0.8rem" ++ ">".

Definition list_open : string :=
  "</label>" ++ lf
  ++ spaces 16 ++ "<ul " ++ attr "class" "list-unstyled mb-0 ml-4" ++ " "
  ++ attr "style" "font-size: 0.7rem" ++ ">" ++ lf.

Definition block_close : string :=
  spaces 16 ++ "</ul>" ++ lf ++ spaces 12 ++ "</div>".

Definition item (label value : string) : string :=
  spaces 20 ++ "<li>" ++ label ++ ": " ++ value ++ "</li>" ++ lf.

Definition genStatus (status : Status) : string :=
  block_open ++ addr status ++ list_open
  ++ item "height" (show (block_height status))
  ++ item "block_hash" (block_hash status)
  ++ item "app_hash" (app_hash status)
  ++ block_close.

Definition genErrorStatus (addr error : string) : string :=
  block_open ++ addr ++ list_open ++ item "error" error ++ block_close.

(** Shortens a string to its left and right parts of the given size. *)
Definition shorten (str : string) (size : Z) : string :=
  substring str 0 size ++ "..." ++ substring str (len str - size) (len str).

Definition newLine : string := cr ++ lf.
Definition sep : string := "**************************".

(** The payload of one node's status response, as far as the page reads it. *)
Record NodeInfo : Type := { listen_addr : string }.
Record SyncInfo : Type := {
  latest_block_hash : string;
  latest_app_hash : string;
  latest_block_height : Z
}.
Record Info : Type := { node_info : NodeInfo; sync_info : SyncInfo }.
Record Response : Type := { result : Info }.

(** The callback mapped over the responses in [updateStatus]. *)
Definition renderResponse (resp : Response) : string :=
  let info := result resp in
  let addr := listen_addr (node_info info) in
  let syncInfo := sync_info info in
  let status :=
    {| addr := addr;
       block_hash := shorten (latest_block_hash syncInfo) 10;
       app_hash := shorten (latest_app_hash syncInfo) 10;
       block_height := latest_block_height syncInfo |} in
  genStatus status.

(** A query result, by what its [asString()] gives. *)
Record Result : Type := { asString : string }.

(** A failure, by what it shows as when put into a string. *)
Definition Error : Type := string.

(** ** [Promise.all] *)

Section PromiseAll.

Variables V E : Type.

Inductive all_state : Type :=
| Waiting (slots : list (option V))
| Done (r : settled (list V) E).

Fixpoint all_values (slots : list (option V)) : option (list V) :=
  match slots with
  | [] => Some []
  | Some v :: rest =>
      match all_values rest with
      | Some vs => Some (v :: vs)
      | None => None
      end
  | None :: _ => None
  end.

Fixpoint fill (i : nat) (v : V) (slots : list (option V)) : list (option V) :=
  match slots, i with
  | [], _ => []
  | _ :: rest, O => Some v :: rest
  | s :: rest, S j => s :: fill j v rest
  end.

(** [Promise.all] over [n] promises: fulfilled at once when there are none. *)
Definition all_start (n : nat) : all_state :=
  match n with
  | O => Done (Fulfilled [])
  | _ => Waiting (repeat None n)
  end.

(** Promise [i] of the array settles while the whole is still waiting:
    the first rejection rejects the whole, the last value fulfils it with
    the values in the order of the array.  A slot settles once. *)
Definition all_settle (slots : list (option V)) (i : nat) (o : settled V E)
  : all_state :=
  match nth_error slots i with
  | Some None =>
      match o with
      | Rejected e => Done (Rejected e)
      | Fulfilled v =>
          let slots' := fill i v slots in
          match all_values slots' with
          | Some vs => Done (Fulfilled vs)
          | None => Waiting slots'
          end
      end
  | _ => Waiting slots
  end.

(** The whole, after the promises settle in the given order. *)
Fixpoint all_after (st : all_state) (arrivals : list (nat * settled V E))
  : all_state :=
  match st, arrivals with
  | Waiting slots, (i, o) :: rest => all_after (all_settle slots i o) rest
  | _, _ => st
  end.

End PromiseAll.

Arguments Waiting {V E} slots.
Arguments Done {V E} r.
Arguments all_values {V} slots.
Arguments fill {V} i v slots.
Arguments all_start {V E} n.
Arguments all_settle {V E} slots i o.
Arguments all_after {V E} st arrivals.

(** ** The value of a textarea *)

(** What [.value] of a textarea reads after a text was assigned to it: the
    text with its newlines normalised, every CR LF pair and every other CR
    read as one LF.  (A CR before an LF is dropped, any other CR becomes an
    LF.) *)
Fixpoint textarea_value (s : string) : string :=
  match s with
  | EmptyString => EmptyString
  | String a rest =>
      if Ascii.eqb a "013"%char then
        match rest with
        | String b _ =>
            if Ascii.eqb b "010"%char then textarea_value rest
            else String "010"%char (textarea_value rest)
        | EmptyString => String "010"%char EmptyString
        end
      else String a (textarea_value rest)
  end.

(** ** The page: [preparePage] and its handlers *)

Section Page.

Context {WorkerSession : Type}.

(** The variables of the module and of [preparePage], the fields of the
    document the handlers read and write, and what the browser and the
    cluster library hold on behalf of the page. *)
Record Page : Type := {
  (* variables *)
  client : @DbClient WorkerSession;
  updating : bool;
  timer : nat;
  (* document *)
  resultField : string;        (* resultField.value *)
  inputField : string;         (* inputField.value *)
  statusField : string;        (* statusField.innerHTML *)
  updateStatusBtn : string;    (* updateStatusBtn.value *)
  (* browser *)
  intervals : list nat;        (* the intervals that are armed *)
  nextInterval : nat;          (* the handle the next setInterval returns *)
  console : list string;
  (* cluster library *)
  requests : list (@Call WorkerSession);       (* every call made so far *)
  polls : list (nat * list (option Response)); (* status() promises not settled *)
  started : nat;                               (* status() calls made so far *)
  awaited : list (@Pending WorkerSession)       (* results with a callback waiting *)
}.

Definition set_client (c : @DbClient WorkerSession) (p : Page) : Page :=
  {| client := c; updating := updating p; timer := timer p;
     resultField := resultField p; inputField := inputField p;
     statusField := statusField p; updateStatusBtn := updateStatusBtn p;
     intervals := intervals p; nextInterval := nextInterval p;
     console := console p; requests := requests p; polls := polls p;
     started := started p; awaited := awaited p |}.

Definition set_updating (b : bool) (p : Page) : Page :=
  {| client := client p; updating := b; timer := timer p;
     resultField := resultField p; inputField := inputField p;
     statusField := statusField p; updateStatusBtn := updateStatusBtn p;
     intervals := intervals p; nextInterval := nextInterval p;
     console := console p; requests := requests p; polls := polls p;
     started := started p; awaited := awaited p |}.

Definition set_resultField (s : string) (p : Page) : Page :=
  {| client := client p; updating := updating p; timer := timer p;
     resultField := s; inputField := inputField p;
     statusField := statusField p; updateStatusBtn := updateStatusBtn p;
     intervals := intervals p; nextInterval := nextInterval p;
     console := console p; requests := requests p; polls := polls p;
     started := started p; awaited := awaited p |}.

Definition set_inputField (s : string) (p : Page) : Page :=
  {| client := client p; updating := updating p; timer := timer p;
     resultField := resultField p; inputField := s;
     statusField := statusField p; updateStatusBtn := updateStatusBtn p;
     intervals := intervals p; nextInterval := nextInterval p;
     console := console p; requests := requests p; polls := polls p;
     started := started p; awaited := awaited p |}.

Definition set_statusField (s : string) (p : Page) : Page :=
  {| client := client p; updating := updating p; timer := timer p;
     resultField := resultField p; inputField := inputField p;
     statusField := s; updateStatusBtn := updateStatusBtn p;
     intervals := intervals p; nextInterval := nextInterval p;
     console := console p; requests := requests p; polls := polls p;
     started := started p; awaited := awaited p |}.

Definition set_updateStatusBtn (s : string) (p : Page) : Page :=
  {| client := client p; updating := updating p; timer := timer p;
     resultField := resultField p; inputField := inputField p;
     statusField := statusField p; updateStatusBtn := s;
     intervals := intervals p; nextInterval := nextInterval p;
     console := console p; requests := requests p; polls := polls p;
     started := started p; awaited := awaited p |}.

Definition set_polls (l : list (nat * list (option Response))) (p : Page) : Page :=
  {| client := client p; updating := updating p; timer := timer p;
     resultField := resultField p; inputField := inputField p;
     statusField := statusField p; updateStatusBtn := updateStatusBtn p;
     intervals := intervals p; nextInterval := nextInterval p;
     console := console p; requests := requests p; polls := l;
     started := started p; awaited := awaited p |}.

Definition set_awaited (l : list (@Pending WorkerSession)) (p : Page) : Page :=
  {| client := client p; updating := updating p; timer := timer p;
     resultField := resultField p; inputField := inputField p;
     statusField := statusField p; updateStatusBtn := updateStatusBtn p;
     intervals := intervals p; nextInterval := nextInterval p;
     console := console p; requests := requests p; polls := polls p;
     started := started p; awaited := l |}.

(** [console.log] of each line, in order. *)
Definition log (lines : list string) (p : Page) : Page :=
  {| client := client p; updating := updating p; timer := timer p;
     resultField := resultField p; inputField := inputField p;
     statusField := statusField p; updateStatusBtn := updateStatusBtn p;
     intervals := intervals p; nextInterval := nextInterval p;
     console := console p ++ lines; requests := requests p; polls := polls p;
     started := started p; awaited := awaited p |}.

(** The library receives the calls, in order. *)
Definition call (cs : list (@Call WorkerSession)) (p : Page) : Page :=
  {| client := client p; updating := updating p; timer := timer p;
     resultField := resultField p; inputField := inputField p;
     statusField := statusField p; updateStatusBtn := updateStatusBtn p;
     intervals := intervals p; nextInterval := nextInterval p;
     console := console p; requests := requests p ++ cs; polls := polls p;
     started := started p; awaited := awaited p |}.

(** [timer = setInterval(updateStatus, 500)] *)
Definition setInterval (p : Page) : Page :=
  {| client := client p; updating := updating p; timer := nextInterval p;
     resultField := resultField p; inputField := inputField p;
     statusField := statusField p; updateStatusBtn := updateStatusBtn p;
     intervals := intervals p ++ [nextInterval p];
     nextInterval := S (nextInterval p);
     console := console p; requests := requests p; polls := polls p;
     started := started p; awaited := awaited p |}.

(** [clearInterval(timer)] *)
Definition clearInterval (p : Page) : Page :=
  {| client := client p; updating := updating p; timer := timer p;
     resultField := resultField p; inputField := inputField p;
     statusField := statusField p; updateStatusBtn := updateStatusBtn p;
     intervals := filter (fun id => negb (Nat.eqb id (timer p))) (intervals p);
     nextInterval := nextInterval p;
     console := console p; requests := requests p; polls := polls p;
     started := started p; awaited := awaited p |}.

(** A [status()] call is made: its requests go out and it gets the next
    number. *)
Definition begin_poll (p : Page) : Page :=
  {| client := client p; updating := updating p; timer := timer p;
     resultField := resultField p; inputField := inputField p;
     statusField := statusField p; updateStatusBtn := updateStatusBtn p;
     intervals := intervals p; nextInterval := nextInterval p;
     console := console p; requests := requests p ++ status (client p);
     polls := polls p; started := S (started p); awaited := awaited p |}.

(** The chain [.then(...).catch(...).finally(...)] of [updateStatus], run
    when the promise of [status()] settles.  The [catch] callback builds an
    error block and returns it; nothing is assigned. *)
Definition status_settled (r : settled (list Response) Error) (p : Page) : Page :=
  match r with
  | Fulfilled rs =>
      set_updating false
        (set_statusField (join lf (map renderResponse rs)) p)
  | Rejected e =>
      let _ := genErrorStatus "" e in
      set_updating false p
  end.

(** [updateStatus()] *)
Definition updateStatus (p : Page) : Page :=
  if updating p then p
  else
    let p1 := set_updating true p in
    let id := started p1 in
    let p2 := begin_poll p1 in
    match all_start (E := Error) (List.length (status (client p1))) with
    | Done r => status_settled r p2
    | Waiting slots => set_polls (polls p2 ++ [(id, slots)]) p2
    end.

(** [submitQueries(queries)] *)
Definition submitQueries (queries : string) (p : Page) : Page :=
  let p1 := set_resultField "" p in
  let (c, r) := submitQuery (client p1) (split "010"%char queries) in
  let p2 := call (invocations r) (log (logged r) (set_client c p1)) in
  match returned r with
  | Fulfilled results => set_awaited (awaited p2 ++ results) p2
  | Rejected _ => p2
  end.

(** The callback of each result in [submitQueries].  [resultField] is a
    textarea: [+=] reads its value, appends and assigns, and the field holds
    what [.value] reads from then on. *)
Definition result_arrived (r : Result) (p : Page) : Page :=
  let strRes := replace "\n" newLine (asString r) in
  set_resultField
    (textarea_value
       (resultField p ++ sep ++ newLine ++ strRes ++ newLine ++ sep)) p.

(** The click listener of [btn]. *)
Definition btn_click (p : Page) : Page :=
  if negb (len (inputField p) =? 0) then
    set_inputField "" (submitQueries (inputField p) p)
  else p.

Definition stop : string := "Stop update status".
Definition start : string := "Start update status".

(** The click listener of [updateStatusBtn]. *)
Definition updateStatusBtn_click (p : Page) : Page :=
  if String.eqb (updateStatusBtn p) stop then
    set_updateStatusBtn start (clearInterval p)
  else
    set_updateStatusBtn stop (setInterval p).

(** [preparePage], from the point where [fluence.connect] has answered
    with [sessions].  The document is as the HTML of the page, which is
    not part of the sources, gives it. *)
Definition preparePage (sessions : @AppSession WorkerSession)
    (result0 input0 status0 button0 : string) : Page :=
  setInterval
    {| client := constructor sessions; updating := false; timer := O;
       resultField := result0; inputField := input0;
       statusField := status0; updateStatusBtn := button0;
       intervals := []; nextInterval := O;
       console := []; requests := []; polls := [];
       started := O; awaited := [] |}.

(** What can happen to the page. *)
Inductive Event : Type :=
| Tick (id : nat)
| ClickSubmit
| ClickUpdateStatus
| Typed (s : string)
| StatusResponse (poll i : nat) (o : settled Response Error)
| QueryResult (k : nat) (o : settled Result Error).

Fixpoint find_poll (id : nat) (l : list (nat * list (option Response)))
  : option (list (option Response)) :=
  match l with
  | [] => None
  | (j, slots) :: rest => if Nat.eqb j id then Some slots else find_poll id rest
  end.

Fixpoint drop_poll (id : nat) (l : list (nat * list (option Response)))
  : list (nat * list (option Response)) :=
  match l with
  | [] => []
  | (j, slots) :: rest =>
      if Nat.eqb j id then rest else (j, slots) :: drop_poll id rest
  end.

Fixpoint put_poll (id : nat) (slots : list (option Response))
    (l : list (nat * list (option Response)))
  : list (nat * list (option Response)) :=
  match l with
  | [] => []
  | (j, old) :: rest =>
      if Nat.eqb j id then (j, slots) :: rest else (j, old) :: put_poll id slots rest
  end.

Fixpoint drop_nth {A : Type} (k : nat) (l : list A) : list A :=
  match l, k with
  | [], _ => []
  | _ :: rest, O => rest
  | x :: rest, S j => x :: drop_nth j rest
  end.

(** One turn of the event loop.  An interval that is not armed does not
    fire; a response for a [status()] promise that has settled finds no
    one waiting; a result settles once. *)
Definition step (p : Page) (ev : Event) : Page :=
  match ev with
  | Tick id =>
      if existsb (Nat.eqb id) (intervals p) then updateStatus p else p
  | ClickSubmit => btn_click p
  | ClickUpdateStatus => updateStatusBtn_click p
  | Typed s => set_inputField s p
  | StatusResponse id i o =>
      match find_poll id (polls p) with
      | None => p
      | Some slots =>
          match all_settle slots i o with
          | Waiting slots' => set_polls (put_poll id slots' (polls p)) p
          | Done r => status_settled r (set_polls (drop_poll id (polls p)) p)
          end
      end
  | QueryResult k o =>
      match nth_error (awaited p) k with
      | None => p
      | Some _ =>
          let p1 := set_awaited (drop_nth k (awaited p)) p in
          match o with
          | Fulfilled r => result_arrived r p1
          | Rejected _ => p1
          end
      end
  end.

Definition run (p : Page) (evs : list Event) : Page := fold_left step evs p.

End Page.

(** What the promise returned by [status()] settles to, when the requests of
    the nodes settle in the given order. *)
Definition status_outcome {WorkerSession V E : Type} (c : @DbClient WorkerSession)
    (arrivals : list (nat * settled V E)) : all_state V E :=
  all_after (all_start (List.length (status c))) arrivals.

(** The nodes a call of [submitQuery] sent its queries to. *)
Definition routed {WorkerSession : Type} (r : @Submitted WorkerSession)
  : list WorkerSession :=
  match returned r with
  | Fulfilled ps => map target ps
  | Rejected _ => []
  end.

(** ** Observations used in the statements *)

(** The number of nodes of the session set of a client. *)
Definition nodes {WorkerSession : Type} (c : @DbClient WorkerSession) : Z :=
  Z.of_nat (List.length (workerSessions (appSession c))).

(** A slot is empty or holds the value of its position. *)
Definition agrees {V : Type} (s : option V) (v : V) : Prop := s = None \/ s = Some v.

(** An arrival brings a value, the one of its position in [vs]. *)
Definition delivers {V E : Type} (vs : list V) (a : nat * settled V E) : Prop :=
  exists v, snd a = Fulfilled v /\ nth_error vs (fst a) = Some v.

(** The label of the toggle, the armed intervals and the handle in [timer]. *)
Definition timers {WorkerSession : Type} (p : @Page WorkerSession)
  : string * list nat * nat :=
  (updateStatusBtn p, intervals p, timer p).

(** The toggle and the timers agree: labelled [stop] with the interval of
    [timer] armed and no other, or labelled [start] with none armed. *)
Definition timers_match {WorkerSession : Type} (p : @Page WorkerSession) : Prop :=
  (updateStatusBtn p = stop /\ intervals p = [timer p]) \/
  (updateStatusBtn p = start /\ intervals p = []).

(** The request [fst a] of the poll [id] settles as [snd a]. *)
Definition answer (id : nat) (a : nat * settled Response Error) : Event :=
  StatusResponse id (fst a) (snd a).

(** A cluster of three nodes, named by strings, for the scenarios. *)
Definition abc : @AppSession string := {| workerSessions := ["A"; "B"; "C"] |}.

Definition response (a h g : string) (n : Z) : Response :=
  {| result :=
       {| node_info := {| listen_addr := a |};
          sync_info := {| latest_block_hash := h; latest_app_hash := g;
                          latest_block_height := n |} |} |}.

Definition ra : Response := response "tcp://a:26656" "0A1B2C3D4E5F60718293A4B5" "FFEE" 7.
Definition rc : Response := response "tcp://c:26656" "0A1B2C3D4E5F60718293A4B5" "FFEE" 7.

(** The page over the cluster A, B, C, as loaded with empty fields and the
    toggle labelled [stop]. *)
Definition page0 : @Page string := preparePage abc "" "" "" stop.


(** ** The start form: the listeners of [startBtn] and of [window] *)

(** A string in a condition: true when it is not empty. *)
Definition truthy (s : string) : bool := negb (len s =? 0).

Inductive Field : Type :=
| ContractAddress
| AppId
| EthereumAddress.

(** A call [fluence.connect(contractAddress, appId, ethereumAddress)]; the
    last argument is [None] for [undefined]. *)
Record Connect : Type := {
  contract : string;
  application : string;
  ethereum : option string
}.

(** The form of the page before the connection: the values of its fields,
    what is hidden or disabled, and the calls made from it. *)
Record Form : Type := {
  contractAddress : string;      (* contractAddress.value *)
  appId : string;                (* appId.value *)
  ethereumAddress : string;      (* ethereumAddress.value *)
  ethereumDisabled : bool;       (* ethereumAddress.disabled *)
  metamaskChecked : bool;        (* metamaskCheckbox.checked *)
  metamaskHidden : bool;         (* metamaskWrapper.hidden *)
  metamaskListens : bool;        (* the change listener is installed *)
  initHidden : bool;             (* init.hidden *)
  mainHidden : bool;             (* main.hidden *)
  reported : list Field;         (* reportValidity() calls *)
  connects : list Connect        (* fluence.connect calls *)
}.

(** [preparePage] up to its [await]: the form is hidden, the main part is
    shown and the connection is asked for. *)
Definition preparePage_connect (c a : string) (e : option string) (f : Form)
  : Form :=
  {| contractAddress := contractAddress f; appId := appId f;
     ethereumAddress := ethereumAddress f;
     ethereumDisabled := ethereumDisabled f;
     metamaskChecked := metamaskChecked f;
     metamaskHidden := metamaskHidden f;
     metamaskListens := metamaskListens f;
     initHidden := true; mainHidden := false;
     reported := reported f;
     connects := connects f ++ [{| contract := c; application := a; ethereum := e |}] |}.

(** [reportValidity()] on each of the fields, in order. *)
Definition reportValidity (fields : list Field) (f : Form) : Form :=
  {| contractAddress := contractAddress f; appId := appId f;
     ethereumAddress := ethereumAddress f;
     ethereumDisabled := ethereumDisabled f;
     metamaskChecked := metamaskChecked f;
     metamaskHidden := metamaskHidden f;
     metamaskListens := metamaskListens f;
     initHidden := initHidden f; mainHidden := mainHidden f;
     reported := reported f ++ fields;
     connects := connects f |}.

(** The click listener of [startBtn]. *)
Definition startBtn_click (f : Form) : Form :=
  if truthy (contractAddress f) && truthy (appId f) && truthy (ethereumAddress f)
  then
    let ethUrl := if metamaskChecked f then None else Some (ethereumAddress f) in
    preparePage_connect (contractAddress f) (appId f) ethUrl f
  else
    reportValidity [ContractAddress; AppId; EthereumAddress] f.

(** The load listener of [window]; [web3] tells whether the browser has
    injected [window.web3]. *)
Definition window_load (web3 : bool) (f : Form) : Form :=
  if negb web3 then
    {| contractAddress := contractAddress f; appId := appId f;
       ethereumAddress := ethereumAddress f;
       ethereumDisabled := ethereumDisabled f;
       metamaskChecked := metamaskChecked f;
       metamaskHidden := true;
       metamaskListens := metamaskListens f;
       initHidden := initHidden f; mainHidden := mainHidden f;
       reported := reported f; connects := connects f |}
  else
    {| contractAddress := contractAddress f; appId := appId f;
       ethereumAddress := ethereumAddress f;
       ethereumDisabled := ethereumDisabled f;
       metamaskChecked := metamaskChecked f;
       metamaskHidden := metamaskHidden f;
       metamaskListens := true;
       initHidden := initHidden f; mainHidden := mainHidden f;
       reported := reported f; connects := connects f |}.

(** The box of [metamaskCheckbox] is set to [checked]; the change listener,
    when it is installed, copies the state to [ethereumAddress.disabled]. *)
Definition metamask_change (checked : bool) (f : Form) : Form :=
  {| contractAddress := contractAddress f; appId := appId f;
     ethereumAddress := ethereumAddress f;
     ethereumDisabled := if metamaskListens f then checked else ethereumDisabled f;
     metamaskChecked := checked;
     metamaskHidden := metamaskHidden f;
     metamaskListens := metamaskListens f;
     initHidden := initHidden f; mainHidden := mainHidden f;
     reported := reported f; connects := connects f |}.

(** ** The second revision of the file *)

Module Part000.

(** A call into the cluster library: the session picks the node itself. *)
Inductive Call : Type :=
| Request (q : string)
| GetWorkersStatus.

(** [submitQuery(queries)]: the lines logged and the requests made, one per
    query, each with its pending result. *)
Definition submitQuery (queries : list string) : list string * list Call :=
  (map (fun q => "query: " ++ q) queries, map Request queries).

(** [status()] *)
Definition status : list Call := [GetWorkersStatus].

(** The query box and the output panel, with the requests made from them. *)
Record Box : Type := {
  inputField : string;       (* inputField.value *)
  resultField : string;      (* resultField.value *)
  console : list string;
  requests : list Call;
  awaited : list string      (* the queries whose result has a callback waiting *)
}.

(** The click listener that [addEventForTips] gives to a tip; [tip] is the
    [innerHTML] of the list item. *)
Definition tip_click (tip : string) (b : Box) : Box :=
  {| inputField :=
       if truthy (inputField b) then inputField b ++ lf ++ tip else tip;
     resultField := resultField b; console := console b;
     requests := requests b; awaited := awaited b |}.

(** [submitQueries(queries)] *)
Definition submitQueries (queries : string) (b : Box) : Box :=
  let (lines, calls) := submitQuery (split "010"%char queries) in
  {| inputField := inputField b; resultField := "";
     console := console b ++ lines;
     requests := requests b ++ calls;
     awaited := awaited b ++ split "010"%char queries |}.

(** The click listener of [btn]. *)
Definition btn_click (b : Box) : Box :=
  if negb (len (inputField b) =? 0) then
    let b' := submitQueries (inputField b) b in
    {| inputField := ""; resultField := resultField b'; console := console b';
       requests := requests b'; awaited := awaited b' |}
  else b.

(** A call [fluence.connect(contractAddress, appId, ethereumAddress,
    privateKey)]; [None] stands for [undefined]. *)
Record Connect : Type := {
  contract : string;
  application : string;
  ethereum : option string;
  key : option string
}.

Record Form : Type := {
  contractAddress : string;      (* contractAddress.value *)
  appId : string;                (* appId.value *)
  ethereumAddress : string;      (* ethereumAddress.value *)
  privateKey : string;           (* privateKey.value *)
  metamaskChecked : bool;        (* metamaskCheckbox.checked *)
  initHidden : bool;             (* init.hidden *)
  mainHidden : bool;             (* main.hidden *)
  showAppId : string;            (* showAppId.innerHTML *)
  showPrivateKey : string;       (* showPrivateKey.innerHTML *)
  reported : list Field;         (* reportValidity() calls *)
  connects : list Connect        (* fluence.connect calls *)
}.

(** A value that may be [undefined] or [null], in a condition. *)
Definition present (o : option string) : bool :=
  match o with
  | Some s => truthy s
  | None => false
  end.

(** [getValuesAndPrepare(appIdStr, privateKey)], with [preparePage] up to
    its [await]. *)
Definition getValuesAndPrepare (appIdStr : string) (pk : option string)
    (f : Form) : Form :=
  if truthy (contractAddress f) && truthy appIdStr && truthy (ethereumAddress f)
  then
    let ethUrl := if metamaskChecked f then None else Some (ethereumAddress f) in
    {| contractAddress := contractAddress f; appId := appId f;
       ethereumAddress := ethereumAddress f; privateKey := privateKey f;
       metamaskChecked := metamaskChecked f;
       initHidden := true; mainHidden := false;
       showAppId := appIdStr;
       showPrivateKey := if present pk then "defined" else "undefined";
       reported := reported f;
       connects :=
         connects f ++ [{| contract := contractAddress f; application := appIdStr;
                           ethereum := ethUrl; key := pk |}] |}
  else
    {| contractAddress := contractAddress f; appId := appId f;
       ethereumAddress := ethereumAddress f; privateKey := privateKey f;
       metamaskChecked := metamaskChecked f;
       initHidden := initHidden f; mainHidden := mainHidden f;
       showAppId := showAppId f; showPrivateKey := showPrivateKey f;
       reported := reported f ++ [ContractAddress; AppId; EthereumAddress];
       connects := connects f |}.

(** The click listener of [startBtn]. *)
Definition startBtn_click (f : Form) : Form :=
  let privateKeyStr := if truthy (privateKey f) then Some (privateKey f) else None in
  getValuesAndPrepare (appId f) privateKeyStr f.

(** The start from the parameters of the address of the page, when the
    script is loaded: [appId] and [pk] are what [urlParams.get] gives,
    [None] for [null]. *)
Definition url_start (appIdFromParams pk : option string) (f : Form) : Form :=
  match appIdFromParams with
  | Some a =>
      if truthy a then
        if present pk then getValuesAndPrepare a pk f
        else getValuesAndPrepare a None f
      else f
  | None => f
  end.

End Part000.

(** ** Further observations *)

(** What the callback of [submitQueries] adds to the output panel for one
    result. *)
Definition entry (r : Result) : string :=
  sep ++ newLine ++ replace "\n" newLine (asString r) ++ newLine ++ sep.

(** The [k]-th awaited result settles as [o]. *)
Definition deliver (a : nat * settled Result Error) : Event :=
  QueryResult (fst a) (snd a).

(** What the output panel reads of the entry of one result. *)
Definition printed (r : Result) : string := textarea_value (entry r).

(** What a sequence of settlements adds to the output panel. *)
Fixpoint shown (arrivals : list (nat * settled Result Error)) : string :=
  match arrivals with
  | [] => ""
  | (_, Fulfilled r) :: rest => printed r ++ shown rest
  | (_, Rejected _) :: rest => shown rest
  end.

(** Each settlement is that of a result still awaited, when [n] results
    are awaited at the start. *)
Fixpoint in_time (n : nat) (arrivals : list (nat * settled Result Error)) : Prop :=
  match arrivals with
  | [] => True
  | (k, _) :: rest => (k < n)%nat /\ in_time (Nat.pred n) rest
  end.

(** The event is not an answer of the request [j] of the poll [id], nor a
    failure of another request of that poll. *)
Definition spares (id j : nat) (ev : Event) : Prop :=
  match ev with
  | StatusResponse id' i o =>
      id' = id -> i <> j /\ exists v, o = Fulfilled v
  | _ => True
  end.

(** The number of occurrences of a character in a string. *)
Fixpoint occurrences (c : ascii) (s : string) : nat :=
  match s with
  | EmptyString => O
  | String a rest =>
      if Ascii.eqb a c then S (occurrences c rest) else occurrences c rest
  end.

(** The output panel holds no CR, as every value read from a textarea. *)
Definition panel_clean {WorkerSession : Type} (p : @Page WorkerSession) : Prop :=
  occurrences "013"%char (resultField p) = O.

(** The state of polling: no poll in flight with the flag clear, or one
    poll in flight, the last one started, with the flag set and a request
    that has not answered. *)
Definition polling_consistent {WorkerSession : Type} (p : @Page WorkerSession)
  : Prop :=
  (updating p = false /\ polls p = []) \/
  (updating p = true /\
   exists slots,
     polls p = [(Nat.pred (started p), slots)] /\
     (0 < started p)%nat /\
     List.length slots = List.length (workerSessions (appSession (client p))) /\
     all_values slots = None).

(** What a call does on a client without nodes. *)
Definition refused {WorkerSession : Type} (qs : list string)
  : @Submitted WorkerSession :=
  match qs with
  | [] => {| selected := NaN; logged := []; returned := Fulfilled [] |}
  | q :: _ => {| selected := NaN; logged := ["query: " ++ q]; returned := Rejected tt |}
  end.

(** Samples for the scenarios: the page with two queries and an empty
    line typed in, a page over no node, a start form filled in, and the query
    box and the start form of the second revision. *)
Definition typed0 : @Page string :=
  step page0 (Typed ("select 1" ++ lf ++ lf ++ "select 2")).

Definition lonely : @Page string :=
  preparePage {| workerSessions := [] |} "" "" "blocks of the last poll" stop.

Definition form0 : Form :=
  {| contractAddress := "0xC0FFEE"; appId := "7";
     ethereumAddress := "http://eth:8545";
     ethereumDisabled := false; metamaskChecked := false;
     metamaskHidden := false; metamaskListens := false;
     initHidden := false; mainHidden := true;
     reported := []; connects := [] |}.

(** The wallet box checked after a load with a wallet, the address empty. *)
Definition form1 : Form :=
  metamask_change true
    (window_load true
       {| contractAddress := "0xC0FFEE"; appId := "7"; ethereumAddress := "";
          ethereumDisabled := false; metamaskChecked := false;
          metamaskHidden := false; metamaskListens := false;
          initHidden := false; mainHidden := true;
          reported := []; connects := [] |}).

Definition box0 : Part000.Box :=
  {| Part000.inputField := ""; Part000.resultField := "";
     Part000.console := []; Part000.requests := []; Part000.awaited := [] |}.

Definition form000 : Part000.Form :=
  {| Part000.contractAddress := "0xC0FFEE"; Part000.appId := "";
     Part000.ethereumAddress := "http://eth:8545"; Part000.privateKey := "";
     Part000.metamaskChecked := true;
     Part000.initHidden := false; Part000.mainHidden := true;
     Part000.showAppId := ""; Part000.showPrivateKey := "";
     Part000.reported := []; Part000.connects := [] |}.

(** * Properties of the dispatcher *)

Section DispatcherFacts.

Context {WorkerSession : Type}.
Implicit Types (c : @DbClient WorkerSession) (ws : list WorkerSession).

Lemma constructor_well_formed ws :
  ws <> [] -> well_formed (constructor {| workerSessions := ws |}).
Proof.
  intros Hne. exists 0. cbn. repeat split; try lia.
  destruct ws; [congruence | cbn; lia].
Qed.

Lemma nextNodeIndex_advance c z :
  well_formed c -> counter c = Num z ->
  nextNodeIndex c =
    ({| appSession := appSession c; size := size c;
        counter := Num ((z + 1) mod nodes c) |},
     Num ((z + 1) mod nodes c)).
Proof.
  intros (z' & Hc & Hs & Hr) Hz. rewrite Hc in Hz. injection Hz as ->.
  unfold nextNodeIndex, nodes. rewrite Hc, Hs. cbn.
  destruct (Z.eqb_spec (Z.of_nat (List.length (workerSessions (appSession c)))) 0)
    as [E | _]; [lia |].
  rewrite Z.rem_mod_nonneg by lia. reflexivity.
Qed.

(** On a well-formed client the selected index names a node, and the call
    is the advance of the counter followed by one [invoke] per query. *)
Lemma submitQuery_well_formed c z qs :
  well_formed c -> counter c = Num z ->
  exists w,
    nth_error (workerSessions (appSession c)) (Z.to_nat ((z + 1) mod nodes c)) = Some w /\
    submitQuery c qs =
      ({| appSession := appSession c; size := size c;
          counter := Num ((z + 1) mod nodes c) |},
       {| selected := Num ((z + 1) mod nodes c);
          logged := map (fun q => "query: " ++ q) qs;
          returned := Fulfilled (map (fun q => {| target := w; query := q |}) qs) |}).
Proof.
  intros Hwf Hz. pose proof Hwf as (z' & Hc & Hs & Hr).
  assert (Hk : 0 <= (z + 1) mod nodes c < nodes c)
    by (apply Z.mod_pos_bound; unfold nodes; lia).
  destruct (nth_error (workerSessions (appSession c))
              (Z.to_nat ((z + 1) mod nodes c))) as [w |] eqn:Hn.
  - exists w. split; [reflexivity |].
    unfold submitQuery. rewrite (nextNodeIndex_advance c z Hwf Hz). cbn.
    destruct (Z.ltb_spec ((z + 1) mod nodes c) 0) as [Hlt | _]; [lia |].
    rewrite Hn. reflexivity.
  - apply nth_error_None in Hn.
    remember ((z + 1) mod nodes c) as k. unfold nodes in Hk. lia.
Qed.

Lemma submitQuery_keeps_well_formed c qs :
  well_formed c -> well_formed (fst (submitQuery c qs)).
Proof.
  intros Hwf. pose proof Hwf as (z & Hc & Hs & Hr).
  destruct (submitQuery_well_formed c z qs Hwf Hc) as (w & _ & ->). cbn.
  exists ((z + 1) mod nodes c). cbn. repeat split; try assumption;
    apply Z.mod_pos_bound; unfold nodes; lia.
Qed.

Lemma submitQuery_keeps_session c qs :
  appSession (fst (submitQuery c qs)) = appSession c.
Proof.
  unfold submitQuery, nextNodeIndex. cbn.
  destruct (index _ _); [reflexivity |]. destruct qs; reflexivity.
Qed.

Lemma submitAll_cons c qs rest :
  submitAll c (qs :: rest) =
    (fst (submitAll (fst (submitQuery c qs)) rest),
     snd (submitQuery c qs) :: snd (submitAll (fst (submitQuery c qs)) rest)).
Proof.
  cbn [submitAll]. destruct (submitQuery c qs) as [c1 r].
  cbn [fst snd]. destruct (submitAll c1 rest). reflexivity.
Qed.

Lemma submitAll_keeps_well_formed batches : forall c,
  well_formed c ->
  well_formed (fst (submitAll c batches)) /\
  appSession (fst (submitAll c batches)) = appSession c.
Proof.
  induction batches as [| qs rest IH]; intros c Hwf.
  - split; [assumption | reflexivity].
  - rewrite submitAll_cons. cbn [fst].
    destruct (IH _ (submitQuery_keeps_well_formed c qs Hwf)) as [IH1 IH2].
    split; [assumption |]. rewrite IH2. apply submitQuery_keeps_session.
Qed.

(** The index selected by the [i]-th call of a run that starts with the
    counter at [z]. *)
Lemma submitAll_selected batches : forall c z i,
  well_formed c -> counter c = Num z ->
  (i < List.length batches)%nat ->
  nth_error (map selected (snd (submitAll c batches))) i =
    Some (Num ((z + Z.of_nat i + 1) mod nodes c)).
Proof.
  induction batches as [| qs rest IH]; intros c z i Hwf Hz Hi; cbn in Hi; [lia |].
  rewrite submitAll_cons. cbn [snd map].
  pose proof (submitQuery_keeps_well_formed c qs Hwf) as Hwf1.
  destruct (submitQuery_well_formed c z qs Hwf Hz) as (w & _ & Heq).
  rewrite Heq in *. cbn [fst snd] in *.
  assert (Hpos : 0 < nodes c)
    by (destruct Hwf as (? & _ & _ & ?); unfold nodes; lia).
  destruct i as [| j]; cbn [nth_error selected].
  - do 3 f_equal. lia.
  - rewrite (IH _ ((z + 1) mod nodes c) j Hwf1 eq_refl) by lia.
    unfold nodes at 2. cbn [appSession]. fold (nodes c).
    do 2 f_equal.
    rewrite <- Z.add_assoc, Z.add_mod_idemp_l by lia.
    f_equal. lia.
Qed.

End DispatcherFacts.

Section DispatcherClaims.

Context {WorkerSession : Type}.
Implicit Types (c : @DbClient WorkerSession) (ws : list WorkerSession).

(** C1, amended.  Over a session set of size S >= 1, the i-th call
    (0-based) of a run of [submitQuery] calls on a new client selects the
    index (i + 1) mod S: the counter starts at 0 and is advanced before
    it is used.  With the session set [A, B, C], three calls with one query
    each go to B, then C, then A. *)
Theorem round_robin_from_second_node ws batches i (A B C : WorkerSession) (q1 : string) :
  ws <> [] ->
  (i < List.length batches)%nat ->
  nth_error
    (map selected (snd (submitAll (constructor {| workerSessions := ws |}) batches))) i
    = Some (Num ((Z.of_nat i + 1) mod Z.of_nat (List.length ws)))
  /\ map routed
       (snd (submitAll (constructor {| workerSessions := [A; B; C] |})
               [[q1]; [q1]; [q1]]))
     = [[B]; [C]; [A]].
Proof.
  intros Hne Hi. split; [| reflexivity].
  rewrite (submitAll_selected batches _ 0 i (constructor_well_formed ws Hne) eq_refl Hi).
  reflexivity.
Qed.

(** C5.  On a client over a session set that is not empty, one call of
    [submitQuery] advances the counter once, whatever the number of
    queries; every query of the batch is sent to the one node at the
    advanced counter; the pending results are as many as the queries and
    stand for them in the order given. *)
Theorem submitQuery_one_node_per_batch c z qs :
  well_formed c -> counter c = Num z ->
  let k := (z + 1) mod nodes c in
  let out := submitQuery c qs in
  counter (fst out) = Num k /\
  appSession (fst out) = appSession c /\
  selected (snd out) = Num k /\
  exists w results,
    index (workerSessions (appSession c)) (Num k) = Some w /\
    returned (snd out) = Fulfilled results /\
    List.length results = List.length qs /\
    map query results = qs /\
    (forall p, In p results -> target p = w) /\
    invocations (snd out) = map (Invoke w) qs.
Proof.
  intros Hwf Hz k out. subst out.
  destruct (submitQuery_well_formed c z qs Hwf Hz) as (w & Hw & ->).
  fold k in Hw |- *. cbn [fst snd counter appSession selected returned].
  repeat split.
  exists w, (map (fun q => {| target := w; query := q |}) qs).
  assert (Hk : 0 <= k < nodes c).
  { apply Z.mod_pos_bound. destruct Hwf as (? & _ & _ & ?). unfold nodes. lia. }
  repeat split.
  - cbn [index]. destruct (Z.ltb_spec k 0); [lia | exact Hw].
  - apply length_map.
  - rewrite map_map. cbn [query]. apply map_id.
  - intros p Hp. apply in_map_iff in Hp. destruct Hp as (q & <- & _). reflexivity.
  - unfold invocations. cbn [returned]. rewrite map_map. reflexivity.
Qed.

(** C7.  Over a session set of size S >= 1, after any number of
    [submitQuery] calls on a new client the counter is an integer in
    [0, S). *)
Theorem counter_stays_in_range ws batches :
  ws <> [] ->
  exists z,
    counter (fst (submitAll (constructor {| workerSessions := ws |}) batches)) = Num z /\
    0 <= z < Z.of_nat (List.length ws).
Proof.
  intros Hne.
  destruct (submitAll_keeps_well_formed batches _ (constructor_well_formed ws Hne))
    as [(z & Hc & _ & Hr) Hs].
  exists z. split; [exact Hc |]. rewrite Hs in Hr. exact Hr.
Qed.

(** C10.  A call of [submitQuery] with no queries advances the counter by
    one modulo S and returns no pending result; the counter after a call
    is the same for every batch. *)
Theorem empty_batch_advances_counter c z :
  well_formed c -> counter c = Num z ->
  counter (fst (submitQuery c [])) = Num ((z + 1) mod nodes c) /\
  returned (snd (submitQuery c [])) = Fulfilled [] /\
  invocations (snd (submitQuery c [])) = [] /\
  forall qs, counter (fst (submitQuery c qs)) = counter (fst (submitQuery c [])).
Proof.
  intros Hwf Hz.
  destruct (submitQuery_well_formed c z [] Hwf Hz) as (w & _ & ->).
  repeat split. intros qs.
  destruct (submitQuery_well_formed c z qs Hwf Hz) as (w' & _ & ->).
  reflexivity.
Qed.

End DispatcherClaims.

(** C1 as the specification states it fails on the first call: over
    [A, B, C] it selects index 1 and goes to B, where 0 mod 3 is 0 and the
    node A. *)
Lemma first_call_skips_first_node :
  let calls := snd (submitAll (constructor abc) [["q1"]; ["q1"]; ["q1"]]) in
  nth_error (map selected calls) 0 = Some (Num 1) /\
  Num 1 <> Num (0 mod 3) /\
  map routed calls = [["B"]; ["C"]; ["A"]] /\
  map routed calls <> [["A"]; ["B"]; ["C"]].
Proof.
  cbv zeta. repeat split; discriminate.
Qed.

Lemma round_robin_from_second_node_witness :
  nth_error
    (map selected
       (snd (submitAll (constructor abc) [["q1"]; ["q2"; "q3"]; []; ["q4"]]))) 3
  = Some (Num 1).
Proof.
  exact (proj1 (round_robin_from_second_node ["A"; "B"; "C"]
                  [["q1"]; ["q2"; "q3"]; []; ["q4"]] 3%nat "A" "B" "C" "q1"
                  ltac:(discriminate) ltac:(cbn; lia))).
Defined.

Lemma submitQuery_one_node_per_batch_witness :
  counter (fst (submitQuery (constructor abc) ["q1"; "q2"])) = Num 1.
Proof.
  exact (proj1 (submitQuery_one_node_per_batch (constructor abc) 0 ["q1"; "q2"]
                  (constructor_well_formed ["A"; "B"; "C"] ltac:(discriminate))
                  eq_refl)).
Defined.

Lemma counter_stays_in_range_witness :
  exists z,
    counter (fst (submitAll (constructor abc) [["q1"]; []; ["q2"]; ["q3"]])) = Num z /\
    0 <= z < 3.
Proof.
  exact (counter_stays_in_range ["A"; "B"; "C"] [["q1"]; []; ["q2"]; ["q3"]]
           ltac:(discriminate)).
Defined.

Lemma empty_batch_advances_counter_witness :
  counter (fst (submitQuery (constructor abc) [])) = Num 1.
Proof.
  exact (proj1 (empty_batch_advances_counter (constructor abc) 0
                  (constructor_well_formed ["A"; "B"; "C"] ltac:(discriminate))
                  eq_refl)).
Defined.

(** * Properties of [Promise.all] *)

Section PromiseAllFacts.

Context {V E : Type}.
Implicit Types (slots : list (option V)) (vs : list V).

Lemma all_values_agrees slots : forall vs vs',
  Forall2 agrees slots vs -> all_values slots = Some vs' -> vs' = vs.
Proof.
  induction slots as [| s rest IH]; intros vs vs' Hag Hall;
    inversion Hag as [| ? v ? vt Hs Hrest]; subst; cbn in Hall.
  - congruence.
  - destruct s as [x |]; [| discriminate].
    destruct (all_values rest) as [xs |] eqn:Hr; [| discriminate].
    injection Hall as <-. rewrite (IH vt xs Hrest eq_refl).
    destruct Hs as [Hs | Hs]; congruence.
Qed.

Lemma all_values_gap slots :
  all_values slots = None -> exists j, nth_error slots j = Some None.
Proof.
  induction slots as [| s rest IH]; cbn; [discriminate |].
  destruct s as [x |]; [| intros _; exists O; reflexivity].
  destruct (all_values rest); [discriminate |].
  intros _. destruct (IH eq_refl) as [j Hj]. exists (S j). exact Hj.
Qed.

Lemma gap_all_values slots j :
  nth_error slots j = Some None -> all_values slots = None.
Proof.
  revert j. induction slots as [| s rest IH]; intros [| j] Hj; cbn in *;
    try discriminate.
  - injection Hj as ->. reflexivity.
  - destruct s; [| reflexivity]. rewrite (IH j Hj). reflexivity.
Qed.

Lemma fill_agrees slots : forall vs i v,
  Forall2 agrees slots vs -> nth_error vs i = Some v ->
  Forall2 agrees (fill i v slots) vs.
Proof.
  induction slots as [| s rest IH]; intros vs i v Hag Hv;
    inversion Hag as [| ? x ? vt Hs Hrest]; subst.
  - destruct i; constructor.
  - destruct i as [| j]; cbn in *.
    + injection Hv as ->. constructor; [right; reflexivity | assumption].
    + constructor; [assumption | apply IH; assumption].
Qed.

Lemma fill_elsewhere slots : forall i j v,
  i <> j -> nth_error (fill i v slots) j = nth_error slots j.
Proof.
  induction slots as [| s rest IH]; intros [| i] [| j] v Hne; cbn;
    try reflexivity; try congruence.
  apply IH. congruence.
Qed.

Lemma all_after_done (r : settled (list V) E) arrivals :
  all_after (Done r) arrivals = Done r.
Proof. destruct arrivals; reflexivity. Qed.

Lemma all_after_fulfilled vs : forall (arrivals : list (nat * settled V E)) slots,
  Forall2 agrees slots vs ->
  all_values slots = None ->
  Forall (delivers vs) arrivals ->
  (forall j, nth_error slots j = Some None -> In j (map fst arrivals)) ->
  all_after (Waiting slots) arrivals = Done (Fulfilled vs).
Proof.
  induction arrivals as [| [i o] rest IH]; intros slots Hag Hnone Hdel Hcov.
  - destruct (all_values_gap slots Hnone) as [j Hj]. destruct (Hcov j Hj).
  - inversion Hdel as [| ? ? (v & Ho & Hv) Hdel']; subst. cbn in Ho, Hv. subst o.
    cbn [all_after]. unfold all_settle.
    destruct (nth_error slots i) as [[x |] |] eqn:Hi.
    + apply IH; try assumption. intros j Hj.
      destruct (Hcov j Hj) as [<- | Hin]; [cbn in Hj; congruence | exact Hin].
    + pose proof (fill_agrees slots vs i v Hag Hv) as Hag'.
      destruct (all_values (fill i v slots)) as [vs' |] eqn:Hall.
      * rewrite (all_values_agrees _ _ _ Hag' Hall). apply all_after_done.
      * apply IH; try assumption. intros j Hj.
        destruct (Nat.eq_dec i j) as [<- | Hne].
        -- exfalso. clear - Hi Hj. revert i Hi Hj.
           induction slots as [| s tl IHs]; intros [| i] Hi Hj; cbn in *;
             try discriminate. eapply IHs; eassumption.
        -- rewrite (fill_elsewhere slots i j v Hne) in Hj.
           destruct (Hcov j Hj) as [Heq | Hin]; [cbn in Heq; congruence | exact Hin].
    + apply IH; try assumption. intros j Hj.
      destruct (Hcov j Hj) as [<- | Hin]; [cbn in Hj; congruence | exact Hin].
Qed.

Lemma all_after_rejected : forall (pre : list (nat * settled V E)) slots i (e : E) post,
  nth_error slots i = Some None ->
  Forall (fun a => exists v, snd a = Fulfilled v) pre ->
  ~ In i (map fst pre) ->
  all_after (Waiting slots) (pre ++ (i, Rejected e) :: post) = Done (Rejected e).
Proof.
  induction pre as [| [j o] rest IH]; intros slots i e post Hi Hful Hnot.
  - cbn. unfold all_settle. rewrite Hi. apply all_after_done.
  - inversion Hful as [| ? ? (v & Ho) Hful']; subst. cbn in Ho. subst o.
    cbn in Hnot. cbn [app all_after]. unfold all_settle.
    destruct (nth_error slots j) as [[x |] |] eqn:Hj;
      try (apply IH; tauto).
    assert (Hi' : nth_error (fill j v slots) i = Some None)
      by (rewrite fill_elsewhere by tauto; exact Hi).
    rewrite (gap_all_values _ _ Hi'). apply IH; tauto.
Qed.

Lemma repeat_agrees vs :
  Forall2 agrees (repeat (@None V) (List.length vs)) vs.
Proof. induction vs; cbn; constructor; [left; reflexivity | assumption]. Qed.

Lemma nth_error_repeat_None n j :
  (j < n)%nat -> nth_error (repeat (@None V) n) j = Some None.
Proof.
  revert j. induction n as [| n IH]; intros [| j] Hj; cbn; try lia;
    [reflexivity | apply IH; lia].
Qed.

End PromiseAllFacts.

Section StatusClaims.

Context {WorkerSession : Type}.
Implicit Types (c : @DbClient WorkerSession).

Lemma status_outcome_start c (arrivals : list (nat * settled Response Error)) :
  status_outcome c arrivals =
    all_after (all_start (List.length (workerSessions (appSession c)))) arrivals.
Proof. unfold status_outcome, status. rewrite length_map. reflexivity. Qed.

(** C2, amended.  [status()] makes one status request per node, in the
    order of the session set.  When the requests all succeed, in whatever
    order they answer, it returns one entry per node in the order of the
    session set.  When a request fails before the last one has answered,
    the call as a whole fails with the first such failure and returns no
    entry: with nodes A, B, C where B fails and A, C succeed, the result
    is the error of B. *)
Theorem status_all_or_nothing c (vs : list Response)
    (arrivals pre post : list (nat * settled Response Error))
    (i : nat) (e : Error) (A B C : WorkerSession) (ra rc : Response) :
  status c = map GetWorkerStatus (workerSessions (appSession c)) /\
  (List.length vs = List.length (workerSessions (appSession c)) ->
   Forall (delivers vs) arrivals ->
   (forall j, (j < List.length vs)%nat -> In j (map fst arrivals)) ->
   status_outcome c arrivals = Done (Fulfilled vs)) /\
  ((i < List.length (workerSessions (appSession c)))%nat ->
   Forall (fun a => exists v, snd a = Fulfilled v) pre ->
   ~ In i (map fst pre) ->
   status_outcome c (pre ++ (i, Rejected e) :: post) = Done (Rejected e)) /\
  status_outcome (constructor {| workerSessions := [A; B; C] |})
    [(0%nat, Fulfilled ra); (1%nat, Rejected e); (2%nat, Fulfilled rc)]
  = Done (Rejected e).
Proof.
  split; [reflexivity |]. split; [| split; [| reflexivity]].
  - intros Hlen Hdel Hcov. rewrite status_outcome_start, <- Hlen.
    destruct vs as [| v0 vt] eqn:Hvs.
    + cbn. apply all_after_done.
    + rewrite <- Hvs in *. replace (all_start (List.length vs))
        with (@Waiting Response Error (repeat None (List.length vs)))
        by (rewrite Hvs; reflexivity).
      apply all_after_fulfilled.
      * apply repeat_agrees.
      * apply (gap_all_values _ O). rewrite Hvs. reflexivity.
      * exact Hdel.
      * intros j Hj. apply Hcov.
        assert (Hsome : nth_error (repeat (@None Response) (List.length vs)) j <> None)
          by congruence.
        apply nth_error_Some in Hsome. rewrite repeat_length in Hsome. exact Hsome.
  - intros Hi Hful Hnot. rewrite status_outcome_start.
    destruct (List.length (workerSessions (appSession c))) as [| n] eqn:Hn; [lia |].
    change (all_start (S n)) with (@Waiting Response Error (repeat None (S n))).
    apply all_after_rejected; try assumption.
    apply nth_error_repeat_None. exact Hi.
Qed.

End StatusClaims.

(** C2 as the specification states it fails: with A and C answering and B
    failing, in any order of arrival, [status()] is rejected with the
    failure of B; it returns no list of three entries. *)
Lemma one_failure_rejects_status :
  Forall
    (fun arrivals : list (nat * settled Response Error) =>
       status_outcome (constructor abc) arrivals = Done (Rejected "B is down"))
    [ [(0, Fulfilled ra); (1, Rejected "B is down"); (2, Fulfilled rc)];
      [(0, Fulfilled ra); (2, Fulfilled rc); (1, Rejected "B is down")];
      [(1, Rejected "B is down"); (0, Fulfilled ra); (2, Fulfilled rc)];
      [(1, Rejected "B is down"); (2, Fulfilled rc); (0, Fulfilled ra)];
      [(2, Fulfilled rc); (0, Fulfilled ra); (1, Rejected "B is down")];
      [(2, Fulfilled rc); (1, Rejected "B is down"); (0, Fulfilled ra)] ]%nat
  /\ ~ (exists entries : list Response,
          status_outcome (V := Response) (E := Error) (constructor abc)
            [(0, Fulfilled ra); (1, Rejected "B is down"); (2, Fulfilled rc)]%nat
          = Done (Fulfilled entries) /\ List.length entries = 3%nat).
Proof.
  split.
  - repeat constructor.
  - intros (entries & H & _). discriminate H.
Qed.

Lemma status_all_or_nothing_witness :
  status_outcome (E := Error) (constructor abc)
    [(2, Fulfilled rc); (0, Fulfilled ra); (1, Fulfilled ra)]%nat
  = Done (Fulfilled [ra; ra; rc])
  /\ status_outcome (constructor abc)
       [(2, Fulfilled rc); (1, Rejected "B is down"); (0, Fulfilled ra)]%nat
     = Done (Rejected "B is down" : settled (list Response) Error).
Proof.
  pose proof (status_all_or_nothing (constructor abc) [ra; ra; rc]
                [(2, Fulfilled rc); (0, Fulfilled ra); (1, Fulfilled ra)]%nat
                [(2%nat, Fulfilled rc)] [(0%nat, Fulfilled ra)] 1%nat "B is down"
                "A" "B" "C" ra rc) as (_ & Hok & Hfail & _).
  split.
  - apply Hok.
    + reflexivity.
    + repeat constructor; eexists; split; reflexivity.
    + cbn. intros j Hj. destruct j as [| [| [| j]]]; [tauto | tauto | tauto | lia].
  - apply Hfail.
    + cbn. lia.
    + repeat constructor. eexists. reflexivity.
    + cbn. intros [H | []]. discriminate H.
Defined.

(** * Properties of the page *)

Section PageFacts.

Context {WorkerSession : Type}.
Implicit Types (p : @Page WorkerSession) (ev : Event).

Lemma len_empty (s : string) : (len s =? 0) = true <-> s = "".
Proof.
  unfold len. destruct s; cbn; split; intros H; try reflexivity; discriminate.
Qed.

Lemma armed_fires id (l : list nat) : In id l -> existsb (Nat.eqb id) l = true.
Proof.
  intros Hin. apply existsb_exists. exists id. split; [exact Hin | apply Nat.eqb_refl].
Qed.

(** A tick during a poll changes nothing. *)
Lemma updateStatus_guard p : updating p = true -> updateStatus p = p.
Proof. intros H. unfold updateStatus. rewrite H. reflexivity. Qed.

(** A tick outside a poll, over a session set that is not empty, starts
    one poll and leaves it in flight. *)
Lemma updateStatus_starts p :
  updating p = false ->
  workerSessions (appSession (client p)) <> [] ->
  updating (updateStatus p) = true /\
  started (updateStatus p) = S (started p) /\
  requests (updateStatus p) = (requests p ++ status (client p))%list /\
  polls (updateStatus p) =
    (polls p ++ [(started p,
                  repeat None (List.length (workerSessions (appSession (client p)))))])%list /\
  statusField (updateStatus p) = statusField p.
Proof.
  intros Hu Hne. unfold updateStatus. rewrite Hu.
  cbn [set_updating client started]. unfold status. rewrite length_map.
  destruct (workerSessions (appSession (client p))) as [| w ws] eqn:Hws;
    [congruence |].
  cbn. unfold status. rewrite ?Hws. repeat split; reflexivity.
Qed.

(** The settlement of the promise of [status()] ends the poll; the panel
    is written when the promise is fulfilled, and only then. *)
Lemma status_settled_effect (r : settled (list Response) Error) p :
  updating (status_settled r p) = false /\
  statusField (status_settled r p) =
    match r with
    | Fulfilled rs => join lf (map renderResponse rs)
    | Rejected _ => statusField p
    end.
Proof. destruct r; split; reflexivity. Qed.

Lemma timers_eq p (q : @Page WorkerSession) :
  timers q = timers p ->
  updateStatusBtn q = updateStatusBtn p /\
  intervals q = intervals p /\
  timer q = timer p.
Proof. unfold timers. intros H. injection H as Hb Hi Ht. auto. Qed.

Lemma updateStatus_keeps_timers p : timers (updateStatus p) = timers p.
Proof.
  unfold updateStatus. destruct (updating p); [reflexivity |].
  destruct (all_start _) as [slots | [rs | e]]; reflexivity.
Qed.

Lemma btn_click_keeps_timers p :
  timers (btn_click p) = timers p /\ started (btn_click p) = started p.
Proof.
  unfold btn_click. destruct (negb _); [| split; reflexivity].
  unfold submitQueries. destruct (submitQuery _ _) as [c r].
  destruct (returned r); split; reflexivity.
Qed.

Lemma answer_keeps_timers p id i o :
  timers (step p (StatusResponse id i o)) = timers p /\
  started (step p (StatusResponse id i o)) = started p.
Proof.
  cbn [step]. destruct (find_poll id (polls p)) as [slots |]; [| split; reflexivity].
  destruct (all_settle slots i o) as [slots' | [rs | e]]; split; reflexivity.
Qed.

Lemma result_keeps_timers p k o :
  timers (step p (QueryResult k o)) = timers p /\
  started (step p (QueryResult k o)) = started p.
Proof.
  cbn [step]. destruct (nth_error (awaited p) k); [| split; reflexivity].
  destruct o; split; reflexivity.
Qed.

Lemma step_keeps_timers p ev :
  ev <> ClickUpdateStatus -> timers (step p ev) = timers p.
Proof.
  intros Hev. destruct ev; try congruence.
  - cbn [step]. destruct (existsb _ _); [apply updateStatus_keeps_timers | reflexivity].
  - apply btn_click_keeps_timers.
  - reflexivity.
  - apply answer_keeps_timers.
  - apply result_keeps_timers.
Qed.

(** With no interval armed, no event but a click on the toggle makes a
    [status()] call. *)
Lemma step_without_timer p ev :
  intervals p = [] -> ev <> ClickUpdateStatus ->
  started (step p ev) = started p /\ intervals (step p ev) = [].
Proof.
  intros Hint Hev.
  destruct (timers_eq _ _ (step_keeps_timers p ev Hev)) as (_ & Hi & _).
  split; [| congruence].
  destruct ev; try congruence.
  - cbn [step]. rewrite Hint. reflexivity.
  - apply btn_click_keeps_timers.
  - reflexivity.
  - apply answer_keeps_timers.
  - apply result_keeps_timers.
Qed.

Lemma run_without_timer evs : forall p,
  intervals p = [] -> ~ In ClickUpdateStatus evs ->
  started (run p evs) = started p /\ intervals (run p evs) = [].
Proof.
  induction evs as [| ev rest IH]; intros p Hint Hno; [split; [reflexivity | exact Hint] |].
  cbn in Hno. unfold run. cbn [fold_left]. fold (run (step p ev) rest).
  destruct (step_without_timer p ev Hint) as [Hs Hi]; [intros ->; tauto |].
  destruct (IH (step p ev) Hi) as [Hs' Hi']; [tauto |].
  split; congruence.
Qed.

Lemma step_timers_match p ev : timers_match p -> timers_match (step p ev).
Proof.
  intros H. destruct ev;
    try (match goal with
         | |- timers_match (step p ?e) =>
             assert (Ht : timers (step p e) = timers p)
               by (apply step_keeps_timers; discriminate)
         end;
         apply timers_eq in Ht; destruct Ht as (Hb & Hi & Ht);
         unfold timers_match; rewrite Hb, Hi, Ht; exact H).
  cbn [step]. unfold updateStatusBtn_click.
  destruct H as [[Hb Hi] | [Hb Hi]]; rewrite Hb.
  - right. cbn. rewrite Hi. cbn. rewrite Nat.eqb_refl. split; reflexivity.
  - left. cbn. rewrite Hi. split; reflexivity.
Qed.

Lemma run_timers_match evs : forall p, timers_match p -> timers_match (run p evs).
Proof.
  induction evs as [| ev rest IH]; intros p H; [exact H |].
  apply (IH (step p ev)). apply step_timers_match. exact H.
Qed.

Lemma preparePage_timers_match sessions (r0 i0 s0 : string) :
  timers_match (preparePage (WorkerSession := WorkerSession) sessions r0 i0 s0 stop).
Proof. left. split; reflexivity. Qed.

Lemma find_put_poll id slots' (l : list (nat * list (option Response))) slots :
  find_poll id l = Some slots -> find_poll id (put_poll id slots' l) = Some slots'.
Proof.
  induction l as [| [j old] rest IH]; cbn; [discriminate |].
  destruct (Nat.eqb j id) eqn:E; cbn; rewrite E; [reflexivity | exact IH].
Qed.

(** A poll in flight whose last answer arrives: the page ends the poll
    and shows what the promise of [status()] settled to. *)
Lemma poll_completes id : forall pre p slots slots' i o r,
  find_poll id (polls p) = Some slots ->
  all_after (Waiting slots) pre = Waiting slots' ->
  all_settle slots' i o = Done r ->
  let p' := run p (map (answer id) pre ++ [StatusResponse id i o]) in
  updating p' = false /\
  statusField p' =
    match r with
    | Fulfilled rs => join lf (map renderResponse rs)
    | Rejected _ => statusField p
    end.
Proof.
  induction pre as [| [j a] rest IH]; intros p slots slots' i o r Hfind Hpre Hlast.
  - cbn in Hpre. injection Hpre as <-. cbn [map app run fold_left step].
    rewrite Hfind, Hlast. destruct r; split; reflexivity.
  - cbn [all_after] in Hpre.
    destruct (all_settle slots j a) as [slots1 | r1] eqn:Hj;
      [| rewrite all_after_done in Hpre; discriminate].
    cbn [map app]. unfold run. cbn [fold_left].
    fold (run (step p (answer id (j, a))) (map (answer id) rest ++ [StatusResponse id i o])).
    assert (Hstep : step p (answer id (j, a)) =
                      set_polls (put_poll id slots1 (polls p)) p)
      by (unfold answer; cbn [step fst snd]; rewrite Hfind, Hj; reflexivity).
    rewrite Hstep.
    specialize (IH (set_polls (put_poll id slots1 (polls p)) p)
                  slots1 slots' i o r).
    cbn [polls set_polls] in IH.
    specialize (IH (find_put_poll id slots1 (polls p) slots Hfind) Hpre Hlast).
    exact IH.
Qed.

End PageFacts.

(** * The value read from the output panel *)

Section TextareaFacts.

Implicit Types (s a b : string).


Lemma textarea_value_clean s : occurrences "013"%char (textarea_value s) = O.
Proof.
  induction s as [| c s IH]; [reflexivity |].
  cbn [textarea_value]. destruct (Ascii.eqb c "013"%char) eqn:Ec.
  - destruct s as [| d s']; [reflexivity |].
    destruct (Ascii.eqb d "010"%char); [exact IH |].
    cbn [occurrences]. cbn [Ascii.eqb Bool.eqb]. exact IH.
  - cbn [occurrences]. rewrite Ec. exact IH.
Qed.

Lemma textarea_value_after_clean a b :
  occurrences "013"%char a = O -> textarea_value (a ++ b) = a ++ textarea_value b.
Proof.
  induction a as [| c a IH]; intros H; [reflexivity |].
  cbn [occurrences] in H. destruct (Ascii.eqb c "013"%char) eqn:Ec; [discriminate |].
  cbn [append textarea_value]. rewrite Ec, (IH H). reflexivity.
Qed.

Lemma textarea_value_of_clean s :
  occurrences "013"%char s = O -> textarea_value s = s.
Proof.
  induction s as [| c s IH]; intros H; [reflexivity |].
  cbn [occurrences] in H. destruct (Ascii.eqb c "013"%char) eqn:Ec; [discriminate |].
  cbn [textarea_value]. rewrite Ec, (IH H). reflexivity.
Qed.

Lemma textarea_value_line b : textarea_value (newLine ++ b) = lf ++ textarea_value b.
Proof. reflexivity. Qed.

(** Around a CR LF the two sides are read independently. *)
Lemma textarea_value_newLine a b :
  textarea_value (a ++ newLine ++ b) = textarea_value a ++ lf ++ textarea_value b.
Proof.
  change (newLine ++ b) with (String "013"%char (String "010"%char b)).
  induction a as [| c a IH]; [reflexivity |].
  cbn [append]. cbn [textarea_value].
  destruct (Ascii.eqb c "013"%char) eqn:Ec.
  - destruct a as [| d a'].
    + cbn [append] in *. cbn [Ascii.eqb Bool.eqb]. rewrite IH. reflexivity.
    + cbn [append] in *. destruct (Ascii.eqb d "010"%char); rewrite IH; reflexivity.
  - rewrite IH. reflexivity.
Qed.

(** What the panel reads after the entry of a result was appended to a
    panel without CR: the panel, then the entry with LF for its newlines. *)
Lemma textarea_value_entry (panel : string) (r : Result) :
  occurrences "013"%char panel = O ->
  textarea_value (panel ++ entry r) = panel ++ printed r /\
  printed r =
    sep ++ lf ++ textarea_value (replace "\n" newLine (asString r)) ++ lf ++ sep.
Proof.
  intros H. split; [apply textarea_value_after_clean; exact H |].
  unfold printed, entry.
  rewrite (textarea_value_after_clean sep _ eq_refl).
  rewrite textarea_value_line, textarea_value_newLine.
  rewrite (textarea_value_of_clean sep eq_refl). reflexivity.
Qed.

End TextareaFacts.

Section PageClaims.

Context {WorkerSession : Type}.
Implicit Types (p : @Page WorkerSession) (ev : Event).

(** C4.  A tick that fires while a poll has not settled ([updating] is
    set) makes no call of [status()] and changes nothing.  When two ticks
    fire before the first poll settles, [status()] is called once, with
    one request per node, and the second tick is a no-op. *)
Theorem ticks_do_not_overlap p (id id1 id2 : nat) (ids : list nat) :
  (updating p = true ->
   step p (Tick id) = p /\ run p (map Tick ids) = p) /\
  (updating p = false ->
   In id1 (intervals p) ->
   workerSessions (appSession (client p)) <> [] ->
   let p1 := step p (Tick id1) in
   updating p1 = true /\
   started p1 = S (started p) /\
   requests p1 = (requests p ++ status (client p))%list /\
   step p1 (Tick id2) = p1 /\
   run p [Tick id1; Tick id2] = p1).
Proof.
  assert (Hskip : forall (q : @Page WorkerSession) t,
             updating q = true -> step q (Tick t) = q).
  { intros q t Hq. cbn [step]. rewrite (updateStatus_guard q Hq).
    destruct (existsb _ _); reflexivity. }
  split.
  - intros Hu. split; [apply Hskip; exact Hu |].
    induction ids as [| t rest IH]; [reflexivity |].
    cbn [map]. unfold run. cbn [fold_left]. rewrite (Hskip p t Hu). exact IH.
  - intros Hu Hin Hne p1.
    assert (Hp1 : p1 = updateStatus p)
      by (subst p1; cbn [step]; rewrite (armed_fires _ _ Hin); reflexivity).
    destruct (updateStatus_starts p Hu Hne) as (H1 & H2 & H3 & _).
    rewrite <- Hp1 in H1, H2, H3.
    repeat split; try assumption.
    + apply Hskip. exact H1.
    + unfold run. cbn [fold_left]. fold p1. apply Hskip. exact H1.
Qed.

(** C9.  A click on the submit button while the input field is the empty
    string leaves the page as it is: no call of [submitQuery], no request
    to the cluster, the output panel unchanged. *)
Theorem empty_input_submits_nothing p :
  inputField p = "" ->
  step p ClickSubmit = p /\
  client (step p ClickSubmit) = client p /\
  requests (step p ClickSubmit) = requests p /\
  resultField (step p ClickSubmit) = resultField p.
Proof.
  intros Hin.
  assert (H : step p ClickSubmit = p).
  { cbn [step]. unfold btn_click.
    rewrite (proj2 (len_empty (inputField p)) Hin). reflexivity. }
  rewrite H. repeat split.
Qed.

(** C8.  A click on the submit button with input that is not empty, on a
    client over a session set that is not empty: the input is split at
    the line feeds, [submitQuery] is called with the lines, and the input
    field is empty at the end of the same turn, when every result is still
    awaited (the handler has also emptied the output panel at that point).
    Each result, when it arrives, is appended to the output panel between
    two delimiter lines.  The panel is a textarea and reads back what was
    assigned with LF for its newlines: after a panel that holds no CR, as a
    panel read from a textarea does, that is what the panel held, followed
    by a delimiter line, the text of the result and a delimiter; and the
    panel holds no CR afterwards. *)
Theorem submission_appends_results p :
  inputField p <> "" ->
  well_formed (client p) ->
  let lines := split "010"%char (inputField p) in
  let p' := step p ClickSubmit in
  (exists w,
     client p' = fst (submitQuery (client p) lines) /\
     requests p' = (requests p ++ map (Invoke w) lines)%list /\
     awaited p' =
       (awaited p ++ map (fun q => {| target := w; query := q |}) lines)%list) /\
  inputField p' = "" /\
  resultField p' = "" /\
  (forall (pg : @Page WorkerSession) k pending r,
     nth_error (awaited pg) k = Some pending ->
     let pg' := step pg (QueryResult k (Fulfilled r)) in
     resultField pg' =
       textarea_value
         (resultField pg ++ sep ++ newLine
            ++ replace "\n" newLine (asString r) ++ newLine ++ sep) /\
     (occurrences "013"%char (resultField pg) = O ->
      resultField pg' =
        resultField pg ++ sep ++ lf
          ++ textarea_value (replace "\n" newLine (asString r)) ++ lf ++ sep) /\
     occurrences "013"%char (resultField pg') = O /\
     awaited pg' = drop_nth k (awaited pg) /\
     inputField pg' = inputField pg).
Proof.
  intros Hin Hwf lines p'.
  assert (Hne : negb (len (inputField p) =? 0) = true).
  { destruct (len (inputField p) =? 0) eqn:E; [| reflexivity].
    apply len_empty in E. contradiction. }
  assert (Hp' : p' = set_inputField "" (submitQueries (inputField p) p))
    by (subst p'; cbn [step]; unfold btn_click; rewrite Hne; reflexivity).
  destruct Hwf as (z & Hc & Hs & Hr).
  destruct (submitQuery_well_formed (client p) z lines
              (ex_intro _ z (conj Hc (conj Hs Hr))) Hc) as (w & _ & Hsub).
  assert (Hq : submitQueries (inputField p) p =
               set_awaited
                 (awaited p ++ map (fun q => {| target := w; query := q |}) lines)
                 (call (map (Invoke w) lines)
                    (log (map (fun q => "query: " ++ q) lines)
                       (set_client (fst (submitQuery (client p) lines))
                          (set_resultField "" p))))).
  { unfold submitQueries. cbn [client set_resultField]. fold lines.
    rewrite Hsub. cbn [fst snd returned logged invocations].
    unfold invocations. cbn [returned]. rewrite map_map. reflexivity. }
  rewrite Hp', Hq. split; [exists w; repeat split |].
  split; [reflexivity |]. split; [reflexivity |].
  intros pg k pending r Hk pg'. subst pg'. cbn [step]. rewrite Hk.
  split; [reflexivity |].
  split; [| split; [apply textarea_value_clean | split; reflexivity]].
  intros Hclean.
  destruct (textarea_value_entry (resultField pg) r Hclean) as [Happ Hpr].
  cbn [result_arrived resultField set_resultField set_awaited].
  change (resultField pg ++ sep ++ newLine
            ++ replace "\n" newLine (asString r) ++ newLine ++ sep)
    with (resultField pg ++ entry r).
  rewrite Happ, Hpr. reflexivity.
Qed.

(** X20.  On a page that was loaded with the toggle labelled [stop], a
    click on the toggle while polling is on clears the interval and does
    nothing else: no interval is armed, no tick fires, and no [status()]
    call is made until the toggle is clicked again, whether a poll is in
    flight or not.  A poll in flight at that moment is kept, with the flag
    [updating]: when it settles, the flag is cleared and the chain of
    [updateStatus] runs as for any poll, so the status panel shows one
    block per node when the requests have all succeeded and is left as it
    was when one of them has failed. *)
Theorem toggle_off_only_stops_the_timer
    (sessions : @AppSession WorkerSession) (r0 i0 s0 : string)
    (evs0 : list Event) :
  let p := run (preparePage sessions r0 i0 s0 stop) evs0 in
  updateStatusBtn p = stop ->
  let p' := step p ClickUpdateStatus in
  updateStatusBtn p' = start /\
  intervals p' = [] /\
  polls p' = polls p /\
  updating p' = updating p /\
  started p' = started p /\
  statusField p' = statusField p /\
  (forall t, step p' (Tick t) = p') /\
  (forall evs, ~ In ClickUpdateStatus evs ->
     started (run p' evs) = started p' /\ intervals (run p' evs) = []) /\
  (forall id slots pre slots' i o r,
     find_poll id (polls p) = Some slots ->
     all_after (Waiting slots) pre = Waiting slots' ->
     all_settle slots' i o = Done r ->
     let p'' := run p' (map (answer id) pre ++ [StatusResponse id i o]) in
     updating p'' = false /\
     intervals p'' = [] /\
     statusField p'' =
       match r with
       | Fulfilled rs => join lf (map renderResponse rs)
       | Rejected _ => statusField p
       end).
Proof.
  intros p Hstop p'.
  assert (Hm : timers_match p)
    by (apply run_timers_match, preparePage_timers_match).
  destruct Hm as [[_ Hi] | [Hb _]]; [| rewrite Hb in Hstop; discriminate].
  assert (Hp' : p' = set_updateStatusBtn start (clearInterval p))
    by (subst p'; cbn [step]; unfold updateStatusBtn_click; rewrite Hstop;
        reflexivity).
  assert (Hint : intervals p' = [])
    by (rewrite Hp'; cbn; rewrite Hi; cbn; rewrite Nat.eqb_refl; reflexivity).
  assert (Hpolls : polls p' = polls p) by (rewrite Hp'; reflexivity).
  assert (Hstatus : statusField p' = statusField p) by (rewrite Hp'; reflexivity).
  split; [rewrite Hp'; reflexivity |].
  split; [exact Hint |]. split; [exact Hpolls |].
  split; [rewrite Hp'; reflexivity |].
  split; [rewrite Hp'; reflexivity |].
  split; [exact Hstatus |].
  split; [intros t; cbn [step]; rewrite Hint; reflexivity |].
  split; [intros evs Hno; apply (run_without_timer evs p' Hint Hno) |].
  intros id slots pre slots' i o r Hfind Hpre Hlast p''.
  rewrite <- Hpolls in Hfind.
  destruct (poll_completes id pre p' slots slots' i o r Hfind Hpre Hlast)
    as [Hu Hs].
  split; [exact Hu |]. split; [| rewrite <- Hstatus; exact Hs].
  apply run_without_timer; [exact Hint |].
  intros Hin. apply in_app_or in Hin. destruct Hin as [Hin | [Hin | []]];
    [| discriminate].
  apply in_map_iff in Hin. destruct Hin as (a & Ha & _). discriminate.
Qed.

End PageClaims.

(** C3, on a failing poll.  Over A, B, C a tick starts a poll and the
    request of B fails.  The flag [updating] is cleared, as the claim says,
    but the status panel keeps what it showed before: the error block that
    the [catch] callback builds is not written to it. *)
Theorem failed_poll_leaves_status_panel :
  let p0 := set_statusField "blocks of the last poll" page0 in
  let p1 := step p0 (Tick 0) in
  let p2 := step p1 (StatusResponse 0 1 (Rejected "B is down")) in
  updating p1 = true /\
  updating p2 = false /\
  statusField p2 = "blocks of the last poll" /\
  statusField p2 <> genErrorStatus "" "B is down".
Proof.
  cbv zeta. repeat split. vm_compute. discriminate.
Qed.

(** C6, on a poll that fails after the toggle.  Over A, B, C a tick starts
    a poll, the toggle is clicked while the poll is in flight, and then the
    request of B fails.  The click clears the interval and keeps the poll,
    as the claim says; when the poll settles the flag [updating] is
    cleared, but the status panel keeps what it showed before: the error
    block that the [catch] callback builds is not written to it. *)
Theorem toggled_off_failed_poll_leaves_panel :
  let p0 := set_statusField "blocks of the last poll" page0 in
  let p1 := step p0 (Tick 0) in
  let p2 := step p1 ClickUpdateStatus in
  let p3 := step p2 (StatusResponse 0 1 (Rejected "B is down")) in
  updating p1 = true /\
  polls p1 = [(0%nat, [None; None; None])] /\
  intervals p2 = [] /\
  polls p2 = polls p1 /\
  updating p3 = false /\
  polls p3 = [] /\
  statusField p3 = "blocks of the last poll" /\
  statusField p3 <> genErrorStatus "" "B is down".
Proof.
  cbv zeta. repeat split. vm_compute. discriminate.
Qed.

Lemma ticks_do_not_overlap_witness :
  run (step page0 (Tick 0)) (map Tick [0; 0; 0]%nat) = step page0 (Tick 0) /\
  started (run page0 [Tick 0; Tick 0]) = 1%nat.
Proof.
  split.
  - exact (proj2 (proj1 (ticks_do_not_overlap (step page0 (Tick 0)) 0 0 0 [0; 0; 0]%nat)
                    eq_refl)).
  - destruct (proj2 (ticks_do_not_overlap page0 0 0 0 []) eq_refl
                (or_introl eq_refl) ltac:(discriminate))
      as (_ & Hs & _ & _ & Hrun).
    rewrite Hrun. exact Hs.
Defined.

Lemma empty_input_submits_nothing_witness :
  step page0 ClickSubmit = page0.
Proof.
  exact (proj1 (empty_input_submits_nothing page0 eq_refl)).
Defined.

Lemma submission_appends_results_witness :
  let p := step page0 (Typed ("select 1" ++ lf ++ "select 2")) in
  inputField (step p ClickSubmit) = "" /\
  awaited (step p ClickSubmit) =
    [ {| target := "B"; query := "select 1" |};
      {| target := "B"; query := "select 2" |} ] /\
  resultField
    (step (step p ClickSubmit) (QueryResult 1 (Fulfilled {| asString := "2 rows" |})))
  = sep ++ lf ++ "2 rows" ++ lf ++ sep.
Proof.
  cbv zeta.
  destruct (submission_appends_results
              (step page0 (Typed ("select 1" ++ lf ++ "select 2")))
              ltac:(discriminate)
              (constructor_well_formed ["A"; "B"; "C"] ltac:(discriminate)))
    as (_ & Hin & _ & Hres).
  split; [exact Hin |]. split; [reflexivity |].
  destruct (Hres (step (step page0 (Typed ("select 1" ++ lf ++ "select 2"))) ClickSubmit)
              1%nat {| target := "B"; query := "select 2" |}
              {| asString := "2 rows" |} eq_refl)
    as (_ & Happ & _).
  exact (Happ eq_refl).
Defined.

Lemma toggle_off_only_stops_the_timer_witness :
  let p' := step (run page0 [Tick 0]) ClickUpdateStatus in
  intervals p' = [] /\
  statusField
    (run p' (map (answer 0) [(2, Fulfilled rc); (0, Fulfilled ra)]
               ++ [StatusResponse 0 1 (Fulfilled ra)])%nat%list)
  = join lf (map renderResponse [ra; ra; rc]) /\
  statusField
    (run p' (map (answer 0) [(2, Fulfilled rc)]
               ++ [StatusResponse 0 1 (Rejected "B is down")])%nat%list)
  = statusField (run page0 [Tick 0]).
Proof.
  cbv zeta.
  destruct (toggle_off_only_stops_the_timer abc "" "" "" [Tick 0] eq_refl)
    as (_ & Hint & _ & _ & _ & _ & _ & _ & Hland).
  split; [exact Hint |]. split.
  - exact (proj2 (proj2 (Hland 0%nat [None; None; None]
                           [(2, Fulfilled rc); (0, Fulfilled ra)]%nat
                           [Some ra; None; Some rc] 1%nat (Fulfilled ra)
                           (Fulfilled [ra; ra; rc]) eq_refl eq_refl eq_refl))).
  - exact (proj2 (proj2 (Hland 0%nat [None; None; None]
                           [(2%nat, Fulfilled rc)]
                           [None; None; Some rc] 1%nat (Rejected "B is down")
                           (Rejected "B is down") eq_refl eq_refl eq_refl))).
Defined.

(** * Further properties of the dispatcher *)

Section DispatcherExtras.

Context {WorkerSession : Type}.
Implicit Types (c : @DbClient WorkerSession) (ws : list WorkerSession).

(** X1.  The round robin is fair: in a run of calls on a new client over S
    nodes, two calls less than S apart select different nodes, and two calls
    exactly S apart select the same node. *)
Theorem round_robin_is_fair ws batches (i j : nat) :
  ws <> [] ->
  (i < j < List.length batches)%nat ->
  let sel := map selected
               (snd (submitAll (constructor {| workerSessions := ws |}) batches)) in
  ((j - i < List.length ws)%nat -> nth_error sel i <> nth_error sel j) /\
  (j = (i + List.length ws)%nat -> nth_error sel i = nth_error sel j).
Proof.
  intros Hne Hij sel. subst sel.
  pose proof (constructor_well_formed ws Hne) as Hwf.
  rewrite (submitAll_selected batches _ 0 i Hwf eq_refl) by lia.
  rewrite (submitAll_selected batches _ 0 j Hwf eq_refl) by lia.
  unfold nodes. cbn [constructor appSession workerSessions].
  assert (HS : 0 < Z.of_nat (List.length ws)) by (destruct ws; [congruence | cbn; lia]).
  set (S := Z.of_nat (List.length ws)) in *.
  split.
  - intros Hd Heq.
    assert (Heq' : (0 + Z.of_nat i + 1) mod S = (0 + Z.of_nat j + 1) mod S)
      by congruence.
    assert (Hm : (Z.of_nat j - Z.of_nat i) mod S = 0).
    { replace (Z.of_nat j - Z.of_nat i)
        with ((0 + Z.of_nat j + 1) - (0 + Z.of_nat i + 1)) by lia.
      rewrite Zminus_mod, Heq', Z.sub_diag. apply Z.mod_0_l. lia. }
    rewrite Z.mod_small in Hm by (subst S; lia). lia.
  - intros ->. do 2 f_equal.
    replace (0 + Z.of_nat (i + List.length ws) + 1) with (0 + Z.of_nat i + 1 + 1 * S)
      by (subst S; lia).
    rewrite Z.mod_add by lia. reflexivity.
Qed.

Lemma submitQuery_routes_inside c qs w :
  In w (routed (snd (submitQuery c qs))) -> In w (workerSessions (appSession c)).
Proof.
  unfold submitQuery, nextNodeIndex, routed.
  cbn [appSession]. set (k := rem (add (counter c) (Num 1)) (size c)).
  destruct (index (workerSessions (appSession c)) k) as [w0 |] eqn:Hk.
  - cbn [snd returned]. rewrite map_map. cbn [target]. intros Hin.
    apply in_map_iff in Hin. destruct Hin as (q & <- & _).
    unfold index in Hk. destruct k as [z |]; [| discriminate].
    destruct (z <? 0); [discriminate |]. eapply nth_error_In. exact Hk.
  - destruct qs; cbn; intros [].
Qed.

Lemma submitQuery_keeps_size c qs : size (fst (submitQuery c qs)) = size c.
Proof.
  unfold submitQuery, nextNodeIndex. cbn.
  destruct (index _ _); [reflexivity |]. destruct qs; reflexivity.
Qed.

Lemma submitAll_keeps_session batches : forall c,
  appSession (fst (submitAll c batches)) = appSession c /\
  size (fst (submitAll c batches)) = size c.
Proof.
  induction batches as [| qs rest IH]; intros c; [split; reflexivity |].
  rewrite submitAll_cons. cbn [fst].
  destruct (IH (fst (submitQuery c qs))) as [Ha Hs]. rewrite Ha, Hs.
  split; [apply submitQuery_keeps_session | apply submitQuery_keeps_size].
Qed.

(** X2.  No query leaves the session set: whatever the state of the
    client and whatever the batches, a run of calls leaves the session set
    and the size as they were, and every pending result of every call of the
    run is a request to a node of that session set. *)
Theorem queries_stay_in_session_set batches c :
  appSession (fst (submitAll c batches)) = appSession c /\
  size (fst (submitAll c batches)) = size c /\
  forall r w,
    In r (snd (submitAll c batches)) ->
    In w (routed r) ->
    In w (workerSessions (appSession c)).
Proof.
  destruct (submitAll_keeps_session batches c) as [Ha Hs].
  split; [exact Ha |]. split; [exact Hs |]. clear Ha Hs.
  revert c. induction batches as [| qs rest IH]; intros c r w Hr Hw; [destruct Hr |].
  rewrite submitAll_cons in Hr. cbn [snd] in Hr.
  destruct Hr as [<- | Hr].
  - apply (submitQuery_routes_inside c qs w Hw).
  - rewrite <- (submitQuery_keeps_session c qs).
    apply (IH _ r w Hr Hw).
Qed.

Lemma submitAll_without_nodes batches : forall c,
  size c = Num 0 -> workerSessions (appSession c) = [] ->
  snd (submitAll c batches) = map refused batches.
Proof.
  induction batches as [| qs rest IH]; intros c Hs Hw; [reflexivity |].
  rewrite submitAll_cons. cbn [snd map]. f_equal.
  - unfold submitQuery, nextNodeIndex. cbn [appSession]. rewrite Hs, Hw.
    assert (Hk : rem (add (counter c) (Num 1)) (Num 0) = NaN)
      by (destruct (counter c); reflexivity).
    rewrite Hk. cbn [index]. destruct qs; reflexivity.
  - apply IH.
    + unfold submitQuery, nextNodeIndex. cbn [appSession].
      destruct (index _ _); [exact Hs |]. destruct qs; exact Hs.
    + rewrite submitQuery_keeps_session. exact Hw.
Qed.

(** X3.  Over an empty session set the counter is NaN from the first call
    on and nothing is ever sent: a call with queries logs the first query
    and its promise is rejected, a call without queries returns no result. *)
Theorem empty_session_set_sends_nothing batches :
  let calls :=
    snd (submitAll (constructor {| workerSessions := @nil WorkerSession |}) batches) in
  calls = map refused batches /\
  Forall (fun r => invocations r = [] /\ selected r = NaN) calls.
Proof.
  cbv zeta.
  rewrite (submitAll_without_nodes batches
             (constructor {| workerSessions := @nil WorkerSession |})
             eq_refl eq_refl).
  split; [reflexivity |]. apply Forall_forall. intros r Hr.
  apply in_map_iff in Hr. destruct Hr as ([| q qs] & <- & _); split; reflexivity.
Qed.

End DispatcherExtras.

Lemma round_robin_is_fair_witness :
  let sel := map selected
               (snd (submitAll (constructor abc)
                       [["q0"]; ["q1"]; ["q2"]; ["q3"]; ["q4"]])) in
  nth_error sel 1 <> nth_error sel 3.
Proof.
  exact (proj1 (round_robin_is_fair ["A"; "B"; "C"]
                  [["q0"]; ["q1"]; ["q2"]; ["q3"]; ["q4"]] 1 3
                  ltac:(discriminate) ltac:(cbn; lia)) ltac:(cbn; lia)).
Defined.

Lemma queries_stay_in_session_set_witness :
  appSession (fst (submitAll (constructor abc) [[]; []])) = abc /\
  In "C" (workerSessions abc).
Proof.
  split.
  - exact (proj1 (queries_stay_in_session_set [[]; []] (constructor abc))).
  - exact (proj2 (proj2 (queries_stay_in_session_set [["q0"]; ["q1"; "q2"]]
                           (constructor abc)))
             {| selected := Num 2; logged := ["query: q1"; "query: q2"];
                returned := Fulfilled [ {| target := "C"; query := "q1" |};
                                        {| target := "C"; query := "q2" |} ] |}
             "C" (or_intror (or_introl eq_refl)) (or_introl eq_refl)).
Defined.

(** * Further properties of polling *)

Section PollingExtras.

Context {WorkerSession : Type}.
Implicit Types (p q : @Page WorkerSession) (ev : Event).

Lemma set_polls_same p : set_polls (polls p) p = p.
Proof. destruct p; reflexivity. Qed.

Lemma tick_skipped p t : updating p = true -> step p (Tick t) = p.
Proof.
  intros Hu. cbn [step]. rewrite (updateStatus_guard p Hu).
  destruct (existsb _ _); reflexivity.
Qed.

(** Clicks, typing and query results leave polling alone. *)
Lemma btn_click_keeps_polling p :
  updating (btn_click p) = updating p /\
  polls (btn_click p) = polls p /\
  started (btn_click p) = started p /\
  statusField (btn_click p) = statusField p /\
  appSession (client (btn_click p)) = appSession (client p).
Proof.
  unfold btn_click. destruct (negb _); [| repeat split].
  unfold submitQueries.
  pose proof (submitQuery_keeps_session (client (set_resultField "" p))
                (split "010"%char (inputField p))) as Hs.
  destruct (submitQuery _ _) as [c r]. cbn [fst] in Hs.
  destruct (returned r); repeat split; exact Hs.
Qed.

Lemma toggle_keeps_polling p :
  updating (updateStatusBtn_click p) = updating p /\
  polls (updateStatusBtn_click p) = polls p /\
  started (updateStatusBtn_click p) = started p /\
  statusField (updateStatusBtn_click p) = statusField p /\
  appSession (client (updateStatusBtn_click p)) = appSession (client p).
Proof.
  unfold updateStatusBtn_click. destruct (String.eqb _ _); repeat split.
Qed.

Lemma result_keeps_polling p k o :
  updating (step p (QueryResult k o)) = updating p /\
  polls (step p (QueryResult k o)) = polls p /\
  started (step p (QueryResult k o)) = started p /\
  statusField (step p (QueryResult k o)) = statusField p /\
  appSession (client (step p (QueryResult k o))) = appSession (client p).
Proof.
  cbn [step]. destruct (nth_error (awaited p) k); [| repeat split].
  destruct o; repeat split.
Qed.

Lemma length_fill {V : Type} (slots : list (option V)) : forall i v,
  List.length (fill i v slots) = List.length slots.
Proof.
  induction slots as [| s rest IH]; intros [| i] v; cbn; try reflexivity.
  rewrite IH. reflexivity.
Qed.

Lemma all_settle_waiting (slots slots' : list (option Response)) i
    (o : settled Response Error) :
  all_settle slots i o = Waiting slots' ->
  all_values slots = None ->
  List.length slots' = List.length slots /\ all_values slots' = None.
Proof.
  unfold all_settle. intros H Hnone.
  destruct (nth_error slots i) as [[x |] |];
    try (injection H as <-; split; [reflexivity | exact Hnone]).
  destruct o as [v | e]; [| discriminate].
  destruct (all_values (fill i v slots)) eqn:Hf; [discriminate |].
  injection H as <-. split; [apply length_fill | exact Hf].
Qed.

Lemma step_polling_consistent p ev :
  polling_consistent p -> polling_consistent (step p ev).
Proof.
  intros H. destruct ev as [t | | | s | id i o | k o].
  - (* a tick *)
    cbn [step]. destruct (existsb _ _); [| exact H].
    unfold updateStatus. destruct (updating p) eqn:Hu; [exact H |].
    destruct H as [[_ Hp] | [Hu' _]]; [| congruence].
    cbn [set_updating client started]. unfold status. rewrite length_map.
    destruct (workerSessions (appSession (client p))) as [| w ws] eqn:Hws.
    + left. cbn. rewrite Hp. split; reflexivity.
    + right. cbn. rewrite Hp, Hws. split; [reflexivity |].
      eexists. split; [reflexivity |]. repeat split; [lia |].
      cbn. rewrite repeat_length. reflexivity.
  - (* a click on the submit button *)
    cbn [step]. destruct (btn_click_keeps_polling p) as (Hu & Hp & Hs & _ & Ha).
    unfold polling_consistent. rewrite Hu, Hp, Hs, Ha. exact H.
  - cbn [step]. destruct (toggle_keeps_polling p) as (Hu & Hp & Hs & _ & Ha).
    unfold polling_consistent. rewrite Hu, Hp, Hs, Ha. exact H.
  - exact H.
  - (* a status request settles *)
    cbn [step]. destruct H as [[Hu Hp] | (Hu & slots & Hp & Hpos & Hlen & Hnone)].
    + rewrite Hp. cbn. left. split; assumption.
    + rewrite Hp. cbn [find_poll].
      destruct (Nat.eqb (Nat.pred (started p)) id) eqn:Hid;
        [| right; split; [exact Hu |]; exists slots; repeat split; assumption].
      destruct (all_settle slots i o) as [slots' | r] eqn:Hset.
      * destruct (all_settle_waiting slots slots' i o Hset Hnone) as [Hl Hn].
        right. cbn [put_poll]. rewrite Hid. split; [exact Hu |].
        exists slots'. cbn. repeat split; try assumption. congruence.
      * left. cbn [drop_poll]. rewrite Hid. destruct r; split; reflexivity.
  - destruct (result_keeps_polling p k o) as (Hu & Hp & Hs & _ & Ha).
    unfold polling_consistent. rewrite Hu, Hp, Hs, Ha. exact H.
Qed.

Lemma run_polling_consistent evs : forall q,
  polling_consistent q -> polling_consistent (run q evs).
Proof.
  induction evs as [| ev rest IH]; intros q Hq; [exact Hq |].
  apply (IH (step q ev)). apply step_polling_consistent. exact Hq.
Qed.

(** X4.  At most one poll is in flight: whatever happens to a page after
    [preparePage], at most one promise of [status()] is unsettled, and the
    flag [updating] is set exactly while there is one. *)
Theorem at_most_one_poll_in_flight (sessions : @AppSession WorkerSession)
    (r0 i0 s0 b0 : string) (evs : list Event) :
  let p := run (preparePage sessions r0 i0 s0 b0) evs in
  (List.length (polls p) <= 1)%nat /\
  (updating p = true <-> polls p <> []) /\
  polling_consistent p.
Proof.
  intros p.
  assert (H : polling_consistent p)
    by (apply run_polling_consistent; left; split; reflexivity).
  split; [| split; [| exact H]].
  - destruct H as [[_ Hp] | (_ & slots & Hp & _)]; rewrite Hp; cbn; lia.
  - destruct H as [[Hu Hp] | (Hu & slots & Hp & _)]; rewrite Hu, Hp;
      split; intros; congruence.
Qed.

Lemma answers_ignored id : forall (arrivals : list (nat * settled Response Error)) q,
  polls q = [] -> run q (map (answer id) arrivals) = q.
Proof.
  induction arrivals as [| a rest IH]; intros q Hq; [reflexivity |].
  cbn [map]. unfold run. cbn [fold_left].
  assert (Hstep : step q (answer id a) = q)
    by (unfold answer; cbn [step]; rewrite Hq; reflexivity).
  rewrite Hstep. apply (IH q Hq).
Qed.

(** The page follows [Promise.all] while the requests of its one poll
    settle. *)
Lemma run_answers id : forall (arrivals : list (nat * settled Response Error)) p slots,
  polls p = [(id, slots)] ->
  run p (map (answer id) arrivals) =
    match all_after (Waiting slots) arrivals with
    | Waiting slots' => set_polls [(id, slots')] p
    | Done r => status_settled r (set_polls [] p)
    end.
Proof.
  induction arrivals as [| [i o] rest IH]; intros p slots Hp.
  - cbn. rewrite <- Hp. symmetry. apply set_polls_same.
  - cbn [map all_after]. unfold run. cbn [fold_left].
    fold (run (step p (answer id (i, o))) (map (answer id) rest)).
    unfold answer at 1. cbn [step fst snd]. rewrite Hp. cbn [find_poll].
    rewrite Nat.eqb_refl.
    destruct (all_settle slots i o) as [slots1 | r] eqn:Hset.
    + cbn [put_poll]. rewrite Nat.eqb_refl.
      rewrite (IH (set_polls [(id, slots1)] p) slots1 eq_refl).
      destruct (all_after (Waiting slots1) rest) as [slots' | r']; reflexivity.
    + cbn [drop_poll]. rewrite Nat.eqb_refl. rewrite all_after_done.
      apply answers_ignored. destruct r; reflexivity.
Qed.

(** X5.  A poll whose requests all succeed shows every node: from a page
    with no poll in flight, a tick of an armed interval followed by the
    answers of all the nodes, in any order of arrival, leaves in the status
    panel one block per node in the order of the session set, joined by line
    feeds, and ends the poll. *)
Theorem successful_poll_shows_every_node p (t : nat) (vs : list Response)
    (arrivals : list (nat * settled Response Error)) :
  updating p = false ->
  polls p = [] ->
  In t (intervals p) ->
  List.length vs = List.length (workerSessions (appSession (client p))) ->
  Forall (delivers vs) arrivals ->
  (forall j, (j < List.length vs)%nat -> In j (map fst arrivals)) ->
  let p' := run p (Tick t :: map (answer (started p)) arrivals) in
  statusField p' = join lf (map renderResponse vs) /\
  updating p' = false /\
  polls p' = [] /\
  started p' = S (started p) /\
  requests p' = (requests p ++ status (client p))%list.
Proof.
  intros Hu Hp Hin Hlen Hdel Hcov p'. subst p'.
  unfold run. cbn [fold_left].
  fold (run (step p (Tick t)) (map (answer (started p)) arrivals)).
  assert (Htick : step p (Tick t) = updateStatus p)
    by (cbn [step]; rewrite (armed_fires _ _ Hin); reflexivity).
  rewrite Htick.
  destruct (workerSessions (appSession (client p))) as [| w ws] eqn:Hws.
  - (* no node: the poll settles within the tick *)
    destruct vs; [| discriminate].
    assert (Hq : updateStatus p = status_settled (Fulfilled []) (begin_poll (set_updating true p))).
    { unfold updateStatus. rewrite Hu. cbn [set_updating client].
      unfold status. rewrite length_map, Hws. reflexivity. }
    rewrite Hq, answers_ignored by (cbn; exact Hp).
    cbn. unfold status. rewrite Hws, Hp. repeat split.
  - destruct (updateStatus_starts p Hu) as (_ & Hs & Hr & Hpl & _);
      [rewrite Hws; discriminate |].
    rewrite Hp, Hws in Hpl. cbn [app] in Hpl.
    rewrite (run_answers (started p) arrivals (updateStatus p) _ Hpl).
    assert (Hall : all_after (Waiting (repeat None (List.length (w :: ws)))) arrivals
                   = Done (Fulfilled vs : settled (list Response) Error)).
    { rewrite <- Hlen. apply all_after_fulfilled.
      - apply repeat_agrees.
      - apply (gap_all_values _ O). rewrite Hlen. reflexivity.
      - exact Hdel.
      - intros j Hj. apply Hcov.
        assert (Hsome : nth_error (repeat (@None Response) (List.length vs)) j <> None)
          by congruence.
        apply nth_error_Some in Hsome. rewrite repeat_length in Hsome. exact Hsome. }
    rewrite Hall. cbn. repeat split; assumption.
Qed.

End PollingExtras.

Section PollingStalls.

Context {WorkerSession : Type}.
Implicit Types (p q : @Page WorkerSession) (ev : Event).

Lemma step_keeps_waiting id j p ev (slots : list (option Response)) :
  updating p = true ->
  polls p = [(id, slots)] ->
  nth_error slots j = Some None ->
  spares id j ev ->
  updating (step p ev) = true /\
  started (step p ev) = started p /\
  statusField (step p ev) = statusField p /\
  exists slots',
    polls (step p ev) = [(id, slots')] /\ nth_error slots' j = Some None.
Proof.
  intros Hu Hp Hj Hev. destruct ev as [t | | | s | id' i o | k o].
  - rewrite (tick_skipped p t Hu). repeat split; try assumption.
    exists slots. split; assumption.
  - cbn [step]. destruct (btn_click_keeps_polling p) as (H1 & H2 & H3 & H4 & _).
    rewrite H1, H2, H3, H4. repeat split; try assumption.
    exists slots. split; assumption.
  - cbn [step]. destruct (toggle_keeps_polling p) as (H1 & H2 & H3 & H4 & _).
    rewrite H1, H2, H3, H4. repeat split; try assumption.
    exists slots. split; assumption.
  - cbn. repeat split; try assumption. exists slots. split; assumption.
  - cbn [step]. rewrite Hp. cbn [find_poll].
    destruct (Nat.eqb_spec id id') as [<- | Hne];
      [| repeat split; try assumption; exists slots; split; assumption].
    destruct (Hev eq_refl) as (Hij & v & ->).
    unfold all_settle.
    destruct (nth_error slots i) as [[x |] |] eqn:Hi;
      try (cbn [put_poll]; rewrite Nat.eqb_refl; cbn; repeat split;
           try assumption; exists slots; split; [reflexivity | assumption]).
    assert (Hj' : nth_error (fill i v slots) j = Some None)
      by (rewrite fill_elsewhere by exact Hij; exact Hj).
    rewrite (gap_all_values _ _ Hj'). cbn [put_poll]. rewrite Nat.eqb_refl.
    cbn. repeat split; try assumption.
    exists (fill i v slots). split; [reflexivity | exact Hj'].
  - destruct (result_keeps_polling p k o) as (H1 & H2 & H3 & H4 & _).
    rewrite H1, H2, H3, H4. repeat split; try assumption.
    exists slots. split; assumption.
Qed.

(** X6.  A node that does not answer blocks polling: while one request of
    the poll in flight has not settled and no other request of it fails,
    whatever else happens (ticks, clicks, typing, query results, answers of
    the other nodes), the flag [updating] stays set, no further [status()]
    call is made and the status panel is not written.  There is no
    timeout. *)
Theorem silent_node_blocks_polling (id j : nat) (evs : list Event) : forall p slots,
  updating p = true ->
  polls p = [(id, slots)] ->
  nth_error slots j = Some None ->
  Forall (spares id j) evs ->
  updating (run p evs) = true /\
  started (run p evs) = started p /\
  statusField (run p evs) = statusField p.
Proof.
  induction evs as [| ev rest IH]; intros p slots Hu Hp Hj Hev; [repeat split; assumption |].
  inversion Hev as [| ? ? Hev1 Hrest]; subst.
  destruct (step_keeps_waiting id j p ev slots Hu Hp Hj Hev1)
    as (Hu' & Hs' & Hf' & slots' & Hp' & Hj').
  unfold run. cbn [fold_left]. fold (run (step p ev) rest).
  destruct (IH (step p ev) slots' Hu' Hp' Hj' Hrest) as (H1 & H2 & H3).
  repeat split; congruence.
Qed.

(** X7.  Over an empty session set the guard never holds a tick back:
    each tick of an armed interval makes a [status()] call that sends no
    request and settles within the same turn, so the flag is clear again
    after it and the status panel is the empty string. *)
Theorem ticks_without_nodes (ts : list nat) : forall p,
  workerSessions (appSession (client p)) = [] ->
  updating p = false ->
  Forall (fun t => In t (intervals p)) ts ->
  let p' := run p (map Tick ts) in
  started p' = (started p + List.length ts)%nat /\
  requests p' = requests p /\
  updating p' = false /\
  polls p' = polls p /\
  (ts <> [] -> statusField p' = "").
Proof.
  induction ts as [| t rest IH]; intros p Hws Hu Hts p'.
  - subst p'. cbn. repeat split; try assumption; try lia. congruence.
  - inversion Hts as [| ? ? Ht Hrest]; subst.
    subst p'. cbn [map]. unfold run. cbn [fold_left].
    fold (run (step p (Tick t)) (map Tick rest)).
    assert (Hstep : step p (Tick t) =
                    status_settled (Fulfilled []) (begin_poll (set_updating true p))).
    { cbn [step]. rewrite (armed_fires _ _ Ht). unfold updateStatus. rewrite Hu.
      cbn [set_updating client]. unfold status. rewrite length_map, Hws. reflexivity. }
    rewrite Hstep.
    specialize (IH (status_settled (Fulfilled []) (begin_poll (set_updating true p)))
                  Hws eq_refl Hrest).
    cbv zeta in IH. destruct IH as (H1 & H2 & H3 & H4 & H5).
    rewrite H1, H2, H3, H4. cbn. unfold status. rewrite Hws, app_nil_r.
    repeat split; try lia.
    intros _. destruct rest as [| t' rest']; [reflexivity |].
    apply H5. discriminate.
Qed.

Lemma toggle_restores p :
  timers_match p ->
  timers_match (step p ClickUpdateStatus) /\
  updateStatusBtn (run p [ClickUpdateStatus; ClickUpdateStatus]) = updateStatusBtn p /\
  List.length (intervals (run p [ClickUpdateStatus; ClickUpdateStatus]))
    = List.length (intervals p).
Proof.
  intros H. split; [apply step_timers_match; exact H |].
  unfold run. cbn [fold_left step]. unfold updateStatusBtn_click.
  destruct H as [[Hb Hi] | [Hb Hi]]; rewrite Hb; cbn; rewrite Hi; cbn;
    rewrite ?Nat.eqb_refl; split; reflexivity.
Qed.

(** X8.  On a page loaded with the toggle labelled [stop], the label says
    what a click will do: at every moment either the label is [stop] and the
    interval in [timer] is the one armed, or the label is [start] and none
    is armed.  So at most one interval is armed, and two clicks on the
    toggle bring back the label and the number of armed intervals. *)
Theorem toggle_label_tracks_timer (sessions : @AppSession WorkerSession)
    (r0 i0 s0 : string) (evs : list Event) :
  let p := run (preparePage sessions r0 i0 s0 stop) evs in
  timers_match p /\
  (List.length (intervals p) <= 1)%nat /\
  (intervals p <> [] <-> updateStatusBtn p = stop) /\
  updateStatusBtn (run p [ClickUpdateStatus; ClickUpdateStatus]) = updateStatusBtn p /\
  List.length (intervals (run p [ClickUpdateStatus; ClickUpdateStatus]))
    = List.length (intervals p).
Proof.
  intros p.
  assert (H : timers_match p) by (apply run_timers_match, preparePage_timers_match).
  destruct (toggle_restores p H) as (_ & H1 & H2).
  split; [exact H |]. split; [| split; [| split; assumption]].
  - destruct H as [[_ Hi] | [_ Hi]]; rewrite Hi; cbn; lia.
  - destruct H as [[Hb Hi] | [Hb Hi]]; rewrite Hb, Hi; split; intros; try congruence.
    discriminate.
Qed.

Lemma step_keeps_first_interval p ev :
  In O (intervals p) -> timer p <> O -> nextInterval p <> O ->
  In O (intervals (step p ev)) /\ timer (step p ev) <> O /\ nextInterval (step p ev) <> O.
Proof.
  intros Hin Ht Hn.
  assert (Hframe : forall q : @Page WorkerSession,
             timers q = timers p -> nextInterval q = nextInterval p ->
             In O (intervals q) /\ timer q <> O /\ nextInterval q <> O).
  { intros q Hq Hnq. apply timers_eq in Hq. destruct Hq as (_ & Hi & Htq).
    rewrite Hi, Htq, Hnq. repeat split; assumption. }
  destruct ev as [t | | | s | id i o | k o].
  - apply Hframe; [apply step_keeps_timers; discriminate |].
    cbn [step]. destruct (existsb _ _); [| reflexivity].
    unfold updateStatus. destruct (updating p); [reflexivity |].
    destruct (all_start _) as [slots | [rs | e]]; reflexivity.
  - apply Hframe; [apply step_keeps_timers; discriminate |].
    cbn [step]. unfold btn_click. destruct (negb _); [| reflexivity].
    unfold submitQueries. destruct (submitQuery _ _) as [c r].
    destruct (returned r); reflexivity.
  - cbn [step]. unfold updateStatusBtn_click.
    destruct (String.eqb _ _); cbn.
    + repeat split; try assumption.
      apply filter_In. split; [exact Hin |].
      destruct (Nat.eqb_spec O (timer p)) as [E | _]; [congruence | reflexivity].
    + repeat split; try assumption; try discriminate.
      apply in_or_app. left. exact Hin.
  - apply Hframe; reflexivity.
  - apply Hframe; [apply step_keeps_timers; discriminate |].
    cbn [step]. destruct (find_poll id (polls p)) as [slots |]; [| reflexivity].
    destruct (all_settle slots i o) as [slots' | [rs | e]]; reflexivity.
  - apply Hframe; [apply step_keeps_timers; discriminate |].
    cbn [step]. destruct (nth_error (awaited p) k); [| reflexivity].
    destruct o; reflexivity.
Qed.

(** X9.  On a page loaded with any other label on the toggle, the first
    click arms a second interval without clearing the first, and the
    interval armed by [preparePage] can never be cleared afterwards: it stays
    armed whatever happens, since [clearInterval] is only ever given the
    handle of the latest interval. *)
Theorem first_interval_is_never_cleared (sessions : @AppSession WorkerSession)
    (r0 i0 s0 b0 : string) (evs : list Event) :
  b0 <> stop ->
  let p1 := step (preparePage sessions r0 i0 s0 b0) ClickUpdateStatus in
  intervals p1 = [0; 1]%nat /\
  updateStatusBtn p1 = stop /\
  In O (intervals (run p1 evs)) /\
  step (run p1 evs) (Tick 0) = updateStatus (run p1 evs).
Proof.
  intros Hb p1.
  assert (Hp1 : p1 = set_updateStatusBtn stop
                       (setInterval (preparePage sessions r0 i0 s0 b0))).
  { subst p1. cbn [step]. unfold updateStatusBtn_click.
    replace (updateStatusBtn (preparePage sessions r0 i0 s0 b0)) with b0 by reflexivity.
    destruct (String.eqb_spec b0 stop) as [E | _]; [contradiction | reflexivity]. }
  assert (Hinv : forall l (q : @Page WorkerSession),
             In O (intervals q) -> timer q <> O -> nextInterval q <> O ->
             In O (intervals (run q l))).
  { induction l as [| ev rest IH]; intros q H1 H2 H3; [exact H1 |].
    destruct (step_keeps_first_interval q ev H1 H2 H3) as (H1' & H2' & H3').
    apply (IH (step q ev) H1' H2' H3'). }
  assert (Hin : In O (intervals (run p1 evs)))
    by (apply Hinv; rewrite Hp1; cbn; [tauto | discriminate | discriminate]).
  rewrite Hp1 at 1 2. repeat split; try exact Hin.
  cbn [step]. rewrite (armed_fires _ _ Hin). reflexivity.
Qed.

End PollingStalls.

(** * Strings *)

Section StringFacts.

Implicit Types (s t u : string) (c : ascii).

Lemma sapp_assoc s t u : (s ++ t) ++ u = s ++ (t ++ u).
Proof. induction s as [| a s IH]; cbn; [reflexivity | rewrite IH; reflexivity]. Qed.

Lemma sapp_nil_r s : s ++ "" = s.
Proof. induction s as [| a s IH]; cbn; [reflexivity | rewrite IH; reflexivity]. Qed.

Lemma slength_app s t : String.length (s ++ t) = (String.length s + String.length t)%nat.
Proof. induction s as [| a s IH]; cbn; [reflexivity | rewrite IH; reflexivity]. Qed.

Lemma substring_length : forall s (n m : nat),
  String.length (String.substring n m s) = Nat.min m (String.length s - n).
Proof.
  induction s as [| a s IH]; intros [| n] [| m]; cbn; try reflexivity.
  - rewrite IH. rewrite Nat.sub_0_r. reflexivity.
  - rewrite IH. reflexivity.
  - rewrite IH. reflexivity.
Qed.

Lemma substring_all s : String.substring 0 (String.length s) s = s.
Proof. induction s as [| a s IH]; cbn; [reflexivity | rewrite IH; reflexivity]. Qed.

Lemma substring_app_l s t : String.substring 0 (String.length s) (s ++ t) = s.
Proof.
  induction s as [| a s IH]; cbn; [destruct t; reflexivity | rewrite IH; reflexivity].
Qed.

Lemma substring_app_r s t (n m : nat) :
  String.substring (String.length s + n) m (s ++ t) = String.substring n m t.
Proof. induction s as [| a s IH]; cbn; [reflexivity | exact IH]. Qed.

Lemma substring_cut : forall s (a i j : nat),
  String.substring a (i + j) s
  = String.substring a i s ++ String.substring (a + i) j s.
Proof.
  induction s as [| c s IH]; intros a i j.
  - destruct a, i, j; reflexivity.
  - destruct a as [| a].
    + destruct i as [| i]; [reflexivity |].
      cbn. rewrite (IH O i j). reflexivity.
    + cbn. apply IH.
Qed.

Lemma split_not_nil c s : split c s <> [].
Proof.
  destruct s as [| a s]; cbn; [discriminate |].
  destruct (Ascii.eqb a c); [discriminate |]. destruct (split c s); discriminate.
Qed.

Lemma join_cons sep x l : l <> [] -> join sep (x :: l) = x ++ sep ++ join sep l.
Proof. destruct l; [congruence | reflexivity]. Qed.

Lemma join_push (a : ascii) sep w ws :
  join sep (String a w :: ws) = String a (join sep (w :: ws)).
Proof. destruct ws; reflexivity. Qed.

(** Splitting at a character and joining with it gives the string back. *)
Lemma join_split c s : join (String c "") (split c s) = s.
Proof.
  induction s as [| a s IH]; [reflexivity |].
  cbn [split]. destruct (Ascii.eqb_spec a c) as [-> | Hne].
  - rewrite join_cons by apply split_not_nil. rewrite IH. reflexivity.
  - destruct (split c s) as [| w ws] eqn:Hs; [destruct (split_not_nil c s Hs) |].
    rewrite join_push, IH. reflexivity.
Qed.

Lemma split_length c s : List.length (split c s) = S (occurrences c s).
Proof.
  induction s as [| a s IH]; [reflexivity |].
  cbn [split occurrences]. destruct (Ascii.eqb a c).
  - cbn. rewrite IH. reflexivity.
  - destruct (split c s) as [| w ws]; [discriminate IH | exact IH].
Qed.

Lemma split_lines_free c s : Forall (fun l => occurrences c l = O) (split c s).
Proof.
  induction s as [| a s IH]; [repeat constructor |].
  cbn [split]. destruct (Ascii.eqb a c) eqn:E.
  - constructor; [reflexivity | exact IH].
  - destruct (split c s) as [| w ws]; [repeat constructor; cbn; rewrite E; reflexivity |].
    inversion IH as [| ? ? Hw Hws]; subst.
    constructor; [cbn; rewrite E; exact Hw | exact Hws].
Qed.

Lemma split_free c s : occurrences c s = O -> split c s = [s].
Proof.
  induction s as [| a s IH]; [reflexivity |].
  cbn. destruct (Ascii.eqb a c); [discriminate |].
  intros H. rewrite (IH H). reflexivity.
Qed.

Lemma split_app c s t :
  occurrences c s = O -> split c (s ++ String c t) = s :: split c t.
Proof.
  induction s as [| a s IH]; cbn.
  - intros _. rewrite Ascii.eqb_refl. reflexivity.
  - destruct (Ascii.eqb a c); [discriminate |].
    intros H. rewrite (IH H). reflexivity.
Qed.

(** Joining lines free of a character with it and splitting at it gives
    the lines back. *)
Lemma split_join c (l : list string) :
  l <> [] -> Forall (fun x => occurrences c x = O) l ->
  split c (join (String c "") l) = l.
Proof.
  induction l as [| x rest IH]; [congruence |].
  intros _ Hfree. inversion Hfree as [| ? ? Hx Hrest]; subst.
  destruct rest as [| y rest'].
  - apply split_free. exact Hx.
  - rewrite join_cons by discriminate. cbn [append].
    rewrite (split_app c x _ Hx). f_equal. apply IH; [discriminate | exact Hrest].
Qed.

(** The first escaped line feed, after a text without backslash. *)
Lemma index_escaped s t :
  occurrences "\"%char s = O ->
  String.index 0 "\n" (s ++ "\n" ++ t) = Some (String.length s).
Proof.
  induction s as [| a s IH]; intros H.
  - cbn. destruct t; reflexivity.
  - cbn in H. destruct (Ascii.eqb a "\"%char) eqn:E; [discriminate |].
    specialize (IH H). remember ("\n" ++ t) as u.
    cbn [append String.length String.index]. rewrite IH.
    cbn [prefix]. destruct (ascii_dec "\"%char a) as [<- | _]; [discriminate E |].
    reflexivity.
Qed.

Lemma index_no_backslash s :
  occurrences "\"%char s = O -> String.index 0 "\n" s = None.
Proof.
  induction s as [| a s IH]; intros H; [reflexivity |].
  cbn in H. destruct (Ascii.eqb a "\"%char) eqn:E; [discriminate |].
  cbn [String.index]. rewrite (IH H).
  cbn [prefix]. destruct (ascii_dec "\"%char a) as [<- | _]; [discriminate E |].
  reflexivity.
Qed.

End StringFacts.

(** * Further properties of query submission *)

Section SubmissionExtras.

Context {WorkerSession : Type}.
Implicit Types (p : @Page WorkerSession) (ev : Event).

(** A click on the submit button with input, on a client over a session
    set that is not empty, in full. *)
Lemma click_submits_lines p :
  inputField p <> "" ->
  well_formed (client p) ->
  exists w,
    step p ClickSubmit =
      set_inputField ""
        (set_awaited
           (awaited p ++ map (fun q => {| target := w; query := q |})
                           (split "010"%char (inputField p)))
           (call (map (Invoke w) (split "010"%char (inputField p)))
              (log (map (fun q => "query: " ++ q) (split "010"%char (inputField p)))
                 (set_client
                    (fst (submitQuery (client p) (split "010"%char (inputField p))))
                    (set_resultField "" p))))).
Proof.
  intros Hin Hwf.
  assert (Hne : negb (len (inputField p) =? 0) = true).
  { destruct (len (inputField p) =? 0) eqn:E; [| reflexivity].
    apply len_empty in E. contradiction. }
  pose proof Hwf as (z & Hc & _).
  destruct (submitQuery_well_formed (client p) z (split "010"%char (inputField p)) Hwf Hc)
    as (w & _ & Hsub).
  exists w. cbn [step]. unfold btn_click. rewrite Hne. f_equal.
  unfold submitQueries. cbn [client set_resultField].
  rewrite Hsub. cbn [fst snd returned logged]. unfold invocations. cbn [returned].
  rewrite map_map. reflexivity.
Qed.

(** X10.  The queries sent are the lines of the input, all of them: a
    submission sends one query per line to one node, empty lines included
    (one more query than there are line feeds in the input), no query holds
    a line feed, and the queries joined by line feeds are the input. *)
Theorem submitted_lines_rebuild_input p :
  inputField p <> "" ->
  well_formed (client p) ->
  exists w lines,
    requests (step p ClickSubmit) = (requests p ++ map (Invoke w) lines)%list /\
    join lf lines = inputField p /\
    List.length lines = S (occurrences "010"%char (inputField p)) /\
    Forall (fun l => occurrences "010"%char l = O) lines.
Proof.
  intros Hin Hwf. destruct (click_submits_lines p Hin Hwf) as (w & ->).
  exists w, (split "010"%char (inputField p)).
  split; [reflexivity |]. split; [apply join_split |].
  split; [apply split_length | apply split_lines_free].
Qed.

Lemma length_drop_nth {A : Type} (l : list A) : forall k,
  (k < List.length l)%nat -> List.length (drop_nth k l) = Nat.pred (List.length l).
Proof.
  induction l as [| x rest IH]; intros [| k] Hk; cbn in *; try lia.
  rewrite IH by lia. lia.
Qed.

Lemma step_keeps_panel_clean p ev : panel_clean p -> panel_clean (step p ev).
Proof.
  unfold panel_clean. intros H. destruct ev as [t | | | s | id i o | k o].
  - cbn [step]. destruct (existsb _ _); [| exact H].
    unfold updateStatus. destruct (updating p); [exact H |].
    destruct (all_start _) as [slots | [rs | e]]; exact H.
  - cbn [step]. unfold btn_click. destruct (negb _); [| exact H].
    unfold submitQueries. destruct (submitQuery _ _) as [c r].
    destruct (returned r); reflexivity.
  - cbn [step]. unfold updateStatusBtn_click. destruct (String.eqb _ _); exact H.
  - exact H.
  - cbn [step]. destruct (find_poll id (polls p)) as [slots |]; [| exact H].
    destruct (all_settle slots i o) as [slots' | [rs | e]]; exact H.
  - cbn [step]. destruct (nth_error (awaited p) k); [| exact H].
    destruct o; [apply textarea_value_clean | exact H].
Qed.

(** The output panel never holds a CR, on a page loaded with a panel that
    holds none. *)
Lemma run_keeps_panel_clean evs : forall p, panel_clean p -> panel_clean (run p evs).
Proof.
  induction evs as [| ev rest IH]; intros p H; [exact H |].
  apply (IH (step p ev)). apply step_keeps_panel_clean. exact H.
Qed.

(** X11.  Results are shown in the order in which they arrive, not in the
    order of the queries: after any sequence of settlements of awaited
    results, the output panel, which holds no CR as every value read from a
    textarea, reads what it read before followed by one entry per fulfilled
    result, in order of arrival, each entry with LF for its newlines.  A
    rejected result adds nothing: no failure of a query is ever shown. *)
Theorem results_land_in_arrival_order
    (arrivals : list (nat * settled Result Error)) : forall p,
  panel_clean p ->
  in_time (List.length (awaited p)) arrivals ->
  let p' := run p (map deliver arrivals) in
  resultField p' = resultField p ++ shown arrivals /\
  panel_clean p' /\
  List.length (awaited p') = (List.length (awaited p) - List.length arrivals)%nat /\
  inputField p' = inputField p.
Proof.
  induction arrivals as [| [k o] rest IH]; intros p Hclean Hin p'.
  - subst p'. cbn. rewrite sapp_nil_r. repeat split; [exact Hclean | lia].
  - cbn in Hin. destruct Hin as [Hk Hrest].
    subst p'. cbn [map]. unfold run. cbn [fold_left].
    fold (run (step p (deliver (k, o))) (map deliver rest)).
    destruct (nth_error (awaited p) k) as [pending |] eqn:Hn;
      [| apply nth_error_None in Hn; lia].
    assert (Hstep : step p (deliver (k, o)) =
                    match o with
                    | Fulfilled r =>
                        result_arrived r (set_awaited (drop_nth k (awaited p)) p)
                    | Rejected _ => set_awaited (drop_nth k (awaited p)) p
                    end)
      by (unfold deliver; cbn [step fst snd]; rewrite Hn; reflexivity).
    rewrite Hstep. pose proof (length_drop_nth (awaited p) k Hk) as Hlen.
    destruct o as [r | e].
    + assert (Hpanel : resultField
                         (result_arrived r (set_awaited (drop_nth k (awaited p)) p))
                       = resultField p ++ printed r)
        by (apply (proj1 (textarea_value_entry (resultField p) r Hclean))).
      specialize (IH (result_arrived r (set_awaited (drop_nth k (awaited p)) p))).
      cbn [result_arrived awaited set_awaited set_resultField] in IH.
      rewrite Hlen in IH.
      destruct (IH (textarea_value_clean _) Hrest) as (H1 & H2 & H3 & H4).
      cbn [result_arrived] in Hpanel |- *.
      rewrite H1, H3, H4, Hpanel. cbn [shown List.length].
      rewrite sapp_assoc. repeat split; [exact H2 | lia].
    + specialize (IH (set_awaited (drop_nth k (awaited p)) p)).
      cbn [awaited set_awaited] in IH.
      rewrite Hlen in IH. destruct (IH Hclean Hrest) as (H1 & H2 & H3 & H4).
      rewrite H1, H3, H4. cbn [shown List.length]. repeat split; [exact H2 | lia].
Qed.

(** X12.  A result of an earlier submission that is still awaited when the
    user submits again is not dropped: the new submission empties the output
    panel, and the late result, when it arrives, is shown in the emptied
    panel among the results of the new submission; the panel then reads the
    entry of that result with LF for its newlines. *)
Theorem late_result_lands_in_new_panel p (k : nat) pending (r : Result) :
  inputField p <> "" ->
  well_formed (client p) ->
  nth_error (awaited p) k = Some pending ->
  nth_error (awaited (step p ClickSubmit)) k = Some pending /\
  resultField (step p ClickSubmit) = "" /\
  resultField (run p [ClickSubmit; QueryResult k (Fulfilled r)]) = printed r /\
  printed r =
    sep ++ lf ++ textarea_value (replace "\n" newLine (asString r)) ++ lf ++ sep.
Proof.
  intros Hin Hwf Hk. destruct (click_submits_lines p Hin Hwf) as (w & Hstep).
  assert (Hk' : nth_error (awaited (step p ClickSubmit)) k = Some pending).
  { rewrite Hstep. cbn [awaited set_inputField set_awaited].
    rewrite nth_error_app1; [exact Hk |].
    apply nth_error_Some. congruence. }
  split; [exact Hk' |]. split; [rewrite Hstep; reflexivity |].
  split; [| apply (proj2 (textarea_value_entry "" r eq_refl))].
  unfold run. cbn [fold_left].
  set (p1 := step p ClickSubmit) in *.
  cbn [step]. rewrite Hk'. unfold result_arrived.
  cbn [resultField set_resultField set_awaited].
  replace (resultField p1) with "" by (rewrite Hstep; reflexivity).
  cbn [append]. unfold printed, entry. reflexivity.
Qed.

(** X13.  Only the first escaped line feed of a result is expanded: in a
    result text that has no backslash before its first backslash-n, that
    first backslash-n is shown as carriage return and line feed and the rest
    of the text is shown as it is; a text without backslash is shown as it
    is. *)
Theorem first_escaped_newline_is_expanded (a b : string) :
  occurrences "\"%char a = O ->
  entry {| asString := a ++ "\n" ++ b |}
    = sep ++ newLine ++ (a ++ newLine ++ b) ++ newLine ++ sep /\
  entry {| asString := a |} = sep ++ newLine ++ a ++ newLine ++ sep.
Proof.
  intros Ha. unfold entry. cbn [asString]. split.
  - do 2 f_equal. f_equal. unfold replace. rewrite (index_escaped a b Ha).
    rewrite substring_app_l. f_equal. f_equal.
    rewrite substring_app_r.
    rewrite slength_app. cbn [String.length append].
    replace (String.length a + S (S (String.length b)) - (String.length a + 2))%nat
      with (String.length b) by lia.
    cbn [String.substring]. apply substring_all.
  - unfold replace. rewrite (index_no_backslash a Ha). reflexivity.
Qed.

End SubmissionExtras.

(** * The shortening of hashes *)

Section ShortenFacts.

Implicit Types (s : string) (n : Z).

Lemma clamp_zero s : clamp s 0 = O.
Proof. unfold clamp, len. rewrite Z.max_id. rewrite Z.min_l by lia. reflexivity. Qed.

Lemma clamp_value s n : clamp s n = Nat.min (Z.to_nat n) (String.length s).
Proof. unfold clamp, len. lia. Qed.

(** [shorten] without the clamping and the swap of [substring]: with k the
    smaller of the size and the length, the first k and the last k
    characters around three dots. *)
Lemma shorten_parts s n :
  let k := Nat.min (Z.to_nat n) (String.length s) in
  shorten s n =
    String.substring 0 k s ++ "..." ++ String.substring (String.length s - k) k s.
Proof.
  intros k. unfold shorten, Js.substring.
  rewrite clamp_zero, !clamp_value. fold k.
  assert (Hlen : Nat.min (Z.to_nat (len s)) (String.length s) = String.length s)
    by (unfold len; lia).
  assert (Hlo : Nat.min (Z.to_nat (len s - n)) (String.length s) = (String.length s - k)%nat)
    by (unfold len; subst k; lia).
  rewrite Hlen, Hlo.
  rewrite Nat.min_0_l, Nat.max_0_l, Nat.sub_0_r.
  rewrite (Nat.min_l (String.length s - k) (String.length s)) by lia.
  rewrite (Nat.max_r (String.length s - k) (String.length s)) by lia.
  replace (String.length s - (String.length s - k))%nat with k by (subst k; lia).
  reflexivity.
Qed.

(** X14.  A shortened string has twice the smaller of the size and the
    length of the string, plus three, characters; so the hashes in a status
    block, shortened with size 10, have at most 23 characters. *)
Theorem shorten_length s n (resp : Response) :
  String.length (shorten s n)
    = (2 * Nat.min (Z.to_nat n) (String.length s) + 3)%nat /\
  (String.length (shorten (latest_block_hash (sync_info (result resp))) 10) <= 23)%nat /\
  (String.length (shorten (latest_app_hash (sync_info (result resp))) 10) <= 23)%nat.
Proof.
  assert (H : forall t m, String.length (shorten t m)
                          = (2 * Nat.min (Z.to_nat m) (String.length t) + 3)%nat).
  { intros t m. rewrite shorten_parts. cbv zeta.
    rewrite !slength_app, !substring_length. cbn [String.length]. lia. }
  split; [apply H |]. rewrite !H. split; lia.
Qed.

(** X15.  A string no longer than the size is not shortened but shown
    twice, around the dots; a string of at least twice the size is cut into
    its first and last [size] characters, with the middle left out. *)
Theorem shorten_short_and_long s n :
  0 <= n ->
  (len s <= n -> shorten s n = s ++ "..." ++ s) /\
  (2 * n <= len s ->
   exists first middle last,
     s = first ++ middle ++ last /\
     len first = n /\ len last = n /\
     shorten s n = first ++ "..." ++ last).
Proof.
  intros Hn. split.
  - intros Hle. rewrite shorten_parts. cbv zeta.
    replace (Nat.min (Z.to_nat n) (String.length s)) with (String.length s)
      by (unfold len in Hle; lia).
    rewrite Nat.sub_diag, substring_all. reflexivity.
  - intros Hge. rewrite shorten_parts. cbv zeta.
    replace (Nat.min (Z.to_nat n) (String.length s)) with (Z.to_nat n)
      by (unfold len in Hge; lia).
    set (k := Z.to_nat n).
    assert (Hk : (2 * k <= String.length s)%nat) by (unfold len in Hge; subst k; lia).
    exists (String.substring 0 k s),
           (String.substring k (String.length s - 2 * k) s),
           (String.substring (String.length s - k) k s).
    repeat split.
    + rewrite <- (substring_all s) at 1.
      replace (String.length s)
        with (k + ((String.length s - 2 * k) + k))%nat at 1 by lia.
      rewrite !substring_cut. cbn [Nat.add]. do 2 f_equal.
      f_equal. lia.
    + unfold len. rewrite substring_length. lia.
    + unfold len. rewrite substring_length. lia.
Qed.

End ShortenFacts.

(** * The start form *)

Section FormFacts.

Lemma truthy_nonempty (s : string) : truthy s = true <-> s <> "".
Proof.
  unfold truthy. destruct s; cbn; split; intros H; congruence.
Qed.

Lemma truthy_empty (s : string) : truthy s = false <-> s = "".
Proof.
  unfold truthy. destruct s; cbn; split; intros H; congruence.
Qed.

(** X16.  The start button connects only when the contract address, the
    application id and the ethereum address are all filled in: then the form
    is hidden, the main part is shown and one connection is asked for, with
    the ethereum address typed, or with none when the wallet box is checked.
    When one of the three is empty, the wallet box checked or not, no
    connection is asked for, the validity of the three fields is reported
    and nothing is hidden or shown. *)
Theorem start_needs_three_fields (f : Form) :
  (contractAddress f <> "" /\ appId f <> "" /\ ethereumAddress f <> "" ->
   connects (startBtn_click f) =
     (connects f ++
      [{| contract := contractAddress f; application := appId f;
          ethereum := if metamaskChecked f then None
                      else Some (ethereumAddress f) |}])%list /\
   initHidden (startBtn_click f) = true /\
   mainHidden (startBtn_click f) = false /\
   reported (startBtn_click f) = reported f) /\
  (contractAddress f = "" \/ appId f = "" \/ ethereumAddress f = "" ->
   connects (startBtn_click f) = connects f /\
   reported (startBtn_click f) =
     (reported f ++ [ContractAddress; AppId; EthereumAddress])%list /\
   initHidden (startBtn_click f) = initHidden f /\
   mainHidden (startBtn_click f) = mainHidden f).
Proof.
  unfold startBtn_click. split.
  - intros (Hc & Ha & He).
    rewrite (proj2 (truthy_nonempty _) Hc), (proj2 (truthy_nonempty _) Ha),
      (proj2 (truthy_nonempty _) He).
    repeat split.
  - intros H.
    assert (Hno : truthy (contractAddress f) && truthy (appId f)
                  && truthy (ethereumAddress f) = false).
    { destruct H as [H | [H | H]]; apply truthy_empty in H; rewrite H;
        repeat rewrite ?andb_false_r, ?andb_false_l; reflexivity. }
    rewrite Hno. repeat split.
Qed.

Lemma changes_keep_listener (cs : list bool) : forall g,
  metamaskListens (fold_left (fun h c => metamask_change c h) cs g) = metamaskListens g /\
  metamaskHidden (fold_left (fun h c => metamask_change c h) cs g) = metamaskHidden g /\
  ethereumAddress (fold_left (fun h c => metamask_change c h) cs g) = ethereumAddress g /\
  (metamaskListens g = false ->
   ethereumDisabled (fold_left (fun h c => metamask_change c h) cs g) = ethereumDisabled g) /\
  (metamaskListens g = true -> cs <> [] ->
   ethereumDisabled (fold_left (fun h c => metamask_change c h) cs g)
   = metamaskChecked (fold_left (fun h c => metamask_change c h) cs g)).
Proof.
  induction cs as [| c rest IH]; intros g; [repeat split; intros; congruence |].
  cbn [fold_left]. destruct (IH (metamask_change c g)) as (H1 & H2 & H3 & H4 & H5).
  rewrite H1, H2, H3. cbn [metamask_change metamaskListens metamaskHidden ethereumAddress].
  repeat split.
  - intros Hl. rewrite H4 by exact Hl. cbn. rewrite Hl. reflexivity.
  - intros Hl _. destruct rest as [| c' rest'].
    + cbn. rewrite Hl. reflexivity.
    + apply H5; [exact Hl | discriminate].
Qed.

(** X17.  The address field follows the wallet box only when the browser
    has a wallet: after the load of the page with [web3] present, every
    change of the box leaves the field disabled exactly when the box is
    checked; without [web3] the box is hidden and no change of it ever
    disables or enables the field.  A change never alters the address. *)
Theorem wallet_box_disables_address (web3 : bool) (cs : list bool) (f : Form) :
  metamaskListens f = false ->
  let f' := fold_left (fun h c => metamask_change c h) cs (window_load web3 f) in
  (web3 = true -> cs <> [] -> ethereumDisabled f' = metamaskChecked f') /\
  (web3 = false ->
   ethereumDisabled f' = ethereumDisabled f /\ metamaskHidden f' = true) /\
  ethereumAddress f' = ethereumAddress f.
Proof.
  intros Hl f'. subst f'.
  destruct (changes_keep_listener cs (window_load web3 f)) as (_ & H2 & H3 & H4 & H5).
  split; [| split].
  - intros -> Hcs. apply H5; [reflexivity | exact Hcs].
  - intros ->. rewrite H2, H4 by exact Hl. split; reflexivity.
  - rewrite H3. destruct web3; reflexivity.
Qed.

End FormFacts.

(** * The second revision: tips and the start from the address *)

Section Part000Facts.

Lemma tips_append (tips : list string) : forall b,
  truthy (Part000.inputField b) = true ->
  let b' := fold_left (fun g t => Part000.tip_click t g) tips b in
  Part000.inputField b' =
    match tips with
    | [] => Part000.inputField b
    | _ => Part000.inputField b ++ lf ++ join lf tips
    end /\
  Part000.requests b' = Part000.requests b /\
  Part000.awaited b' = Part000.awaited b /\
  Part000.resultField b' = Part000.resultField b.
Proof.
  induction tips as [| t rest IH]; intros b Hb b'; [repeat split |].
  subst b'. cbn [fold_left].
  assert (Hin : Part000.inputField (Part000.tip_click t b)
                = Part000.inputField b ++ lf ++ t)
    by (cbn; rewrite Hb; reflexivity).
  assert (Hb' : truthy (Part000.inputField (Part000.tip_click t b)) = true).
  { rewrite Hin. apply truthy_nonempty. apply truthy_nonempty in Hb.
    destruct (Part000.inputField b); [congruence | discriminate]. }
  destruct (IH (Part000.tip_click t b) Hb') as (H1 & H2 & H3 & H4).
  rewrite H1, H2, H3, H4, Hin. repeat split.
  destruct rest as [| t' rest']; [reflexivity |].
  rewrite (join_cons lf t (t' :: rest')) by discriminate.
  rewrite !sapp_assoc. reflexivity.
Qed.

(** X18.  Tips become queries: from an empty query box, clicking tips
    (the first one not empty, none with a line feed) and then the submit
    button sends exactly the tips clicked, one request each, in the order
    of the clicks, and empties the box.  A tip clicked on a box that is not
    empty is put on a new line after what the box holds. *)
Theorem tips_then_submit (t : string) (tips : list string) (b : Part000.Box) :
  Part000.inputField b = "" ->
  t <> "" ->
  Forall (fun x => occurrences "010"%char x = O) (t :: tips) ->
  let b1 := fold_left (fun g x => Part000.tip_click x g) (t :: tips) b in
  Part000.inputField b1 = join lf (t :: tips) /\
  Part000.requests (Part000.btn_click b1)
    = (Part000.requests b ++ map Part000.Request (t :: tips))%list /\
  Part000.awaited (Part000.btn_click b1) = (Part000.awaited b ++ t :: tips)%list /\
  Part000.inputField (Part000.btn_click b1) = "" /\
  Part000.inputField (Part000.tip_click t b1) = join lf (t :: tips) ++ lf ++ t.
Proof.
  intros Hb Ht Hfree b1. subst b1. cbn [fold_left].
  assert (H0 : Part000.inputField (Part000.tip_click t b) = t)
    by (cbn; rewrite Hb; reflexivity).
  assert (Hb0 : truthy (Part000.inputField (Part000.tip_click t b)) = true)
    by (rewrite H0; apply truthy_nonempty; exact Ht).
  destruct (tips_append tips (Part000.tip_click t b) Hb0) as (H1 & H2 & H3 & _).
  set (b1 := fold_left (fun g x => Part000.tip_click x g) tips (Part000.tip_click t b))
    in *.
  rewrite H0 in H1.
  assert (Hin : Part000.inputField b1 = join lf (t :: tips)).
  { rewrite H1. destruct tips as [| t' rest]; [reflexivity |].
    rewrite (join_cons lf t (t' :: rest)) by discriminate. reflexivity. }
  assert (Hne : truthy (Part000.inputField b1) = true).
  { rewrite Hin. apply truthy_nonempty.
    destruct t; [congruence |]. destruct tips; discriminate. }
  assert (Hsplit : split "010"%char (Part000.inputField b1) = t :: tips)
    by (rewrite Hin; apply split_join; [discriminate | exact Hfree]).
  split; [exact Hin |].
  unfold Part000.btn_click. fold (truthy (Part000.inputField b1)). rewrite Hne.
  unfold Part000.submitQueries, Part000.submitQuery. rewrite Hsplit.
  cbn [Part000.requests Part000.awaited Part000.inputField].
  rewrite H2, H3. cbn [Part000.tip_click Part000.inputField].
  rewrite Hne, Hin. repeat split.
Qed.

(** X19.  With an application id in the address of the page, the page
    starts by itself when the contract and ethereum address fields are
    filled: it connects with the id of the address, not with the field, and
    with the private key of the address when there is one that is not
    empty.  The page shows the id and whether a key is defined, never the
    key.  Without an id in the address, or with an empty one, nothing
    happens. *)
Theorem start_from_address (a : string) (pk : option string) (f : Part000.Form) :
  (a <> "" ->
   Part000.contractAddress f <> "" ->
   Part000.ethereumAddress f <> "" ->
   let f' := Part000.url_start (Some a) pk f in
   Part000.connects f' =
     (Part000.connects f ++
      [{| Part000.contract := Part000.contractAddress f;
          Part000.application := a;
          Part000.ethereum := if Part000.metamaskChecked f then None
                              else Some (Part000.ethereumAddress f);
          Part000.key := if Part000.present pk then pk else None |}])%list /\
   Part000.showAppId f' = a /\
   Part000.showPrivateKey f' = (if Part000.present pk then "defined" else "undefined") /\
   Part000.initHidden f' = true /\
   Part000.mainHidden f' = false) /\
  Part000.url_start None pk f = f /\
  Part000.url_start (Some "") pk f = f.
Proof.
  split; [| split; reflexivity].
  intros Ha Hc He f'. subst f'. unfold Part000.url_start.
  rewrite (proj2 (truthy_nonempty a) Ha).
  unfold Part000.getValuesAndPrepare.
  rewrite (proj2 (truthy_nonempty _) Hc), (proj2 (truthy_nonempty a) Ha),
    (proj2 (truthy_nonempty _) He).
  destruct (Part000.present pk); repeat split.
Qed.

End Part000Facts.

(** * Scenarios for the further properties *)

Lemma successful_poll_shows_every_node_witness :
  statusField
    (run page0
       (Tick 0 :: map (answer 0)
                    [(2, Fulfilled rc); (0, Fulfilled ra); (1, Fulfilled ra)]%nat))
  = join lf (map renderResponse [ra; ra; rc]).
Proof.
  refine (proj1 (successful_poll_shows_every_node page0 0 [ra; ra; rc]
                   [(2, Fulfilled rc); (0, Fulfilled ra); (1, Fulfilled ra)]%nat
                   eq_refl eq_refl (or_introl eq_refl) eq_refl _ _)).
  - repeat constructor; eexists; split; reflexivity.
  - cbn. intros j Hj. destruct j as [| [| [| j]]]; [tauto | tauto | tauto | lia].
Defined.

Lemma silent_node_blocks_polling_witness :
  updating
    (run (step page0 (Tick 0))
       [Tick 0; StatusResponse 0 0 (Fulfilled ra); ClickUpdateStatus;
        StatusResponse 0 2 (Fulfilled rc); Tick 0]) = true.
Proof.
  refine (proj1 (silent_node_blocks_polling 0 1
                   [Tick 0; StatusResponse 0 0 (Fulfilled ra); ClickUpdateStatus;
                    StatusResponse 0 2 (Fulfilled rc); Tick 0]
                   (step page0 (Tick 0)) [None; None; None]
                   eq_refl eq_refl eq_refl _)).
  repeat (apply Forall_cons;
          [first [exact I | intros _; split; [discriminate | eexists; reflexivity]] |]).
  apply Forall_nil.
Defined.

Lemma ticks_without_nodes_witness :
  started (run lonely (map Tick [0; 0; 0]%nat)) = 3%nat /\
  statusField (run lonely (map Tick [0; 0; 0]%nat)) = "".
Proof.
  destruct (ticks_without_nodes [0; 0; 0]%nat lonely eq_refl eq_refl)
    as (Hs & _ & _ & _ & Hf).
  - repeat constructor.
  - split; [exact Hs | apply Hf; discriminate].
Defined.

Lemma first_interval_is_never_cleared_witness :
  In O (intervals
          (run (step (preparePage abc "" "" "" "") ClickUpdateStatus)
             [ClickUpdateStatus; ClickUpdateStatus; ClickUpdateStatus])).
Proof.
  destruct (first_interval_is_never_cleared abc "" "" "" ""
              [ClickUpdateStatus; ClickUpdateStatus; ClickUpdateStatus]
              ltac:(discriminate))
    as (_ & _ & Hin & _).
  exact Hin.
Defined.

Lemma submitted_lines_rebuild_input_witness :
  exists (w : string) lines,
    requests (step typed0 ClickSubmit) = (requests typed0 ++ map (Invoke w) lines)%list /\
    join lf lines = inputField typed0 /\
    List.length lines = S (occurrences "010"%char (inputField typed0)) /\
    Forall (fun l => occurrences "010"%char l = O) lines.
Proof.
  exact (submitted_lines_rebuild_input typed0 ltac:(discriminate)
           (constructor_well_formed ["A"; "B"; "C"] ltac:(discriminate))).
Defined.

Lemma results_land_in_arrival_order_witness :
  resultField
    (run (step typed0 ClickSubmit)
       (map deliver
          [(1, Fulfilled {| asString := "two" |}); (0, Rejected "lost");
           (0, Fulfilled {| asString := "one" |})]%nat))
  = printed {| asString := "two" |} ++ printed {| asString := "one" |}.
Proof.
  refine (proj1 (results_land_in_arrival_order
                   [(1, Fulfilled {| asString := "two" |}); (0, Rejected "lost");
                    (0, Fulfilled {| asString := "one" |})]%nat
                   (step typed0 ClickSubmit) eq_refl _)).
  vm_compute. repeat split; lia.
Defined.

Lemma late_result_lands_in_new_panel_witness :
  resultField
    (run (step (step typed0 ClickSubmit) (Typed "select 3"))
       [ClickSubmit; QueryResult 0 (Fulfilled {| asString := "one" |})])
  = printed {| asString := "one" |}.
Proof.
  refine (proj1 (proj2 (proj2 (late_result_lands_in_new_panel
                          (step (step typed0 ClickSubmit) (Typed "select 3")) 0
                          {| target := "B"; query := "select 1" |}
                          {| asString := "one" |}
                          ltac:(discriminate) _ eq_refl)))).
  exists 1. repeat split; cbn; lia.
Defined.

Lemma first_escaped_newline_is_expanded_witness :
  entry {| asString := "1 row" ++ "\n" ++ "id\n7" |}
  = sep ++ newLine ++ ("1 row" ++ newLine ++ "id\n7") ++ newLine ++ sep.
Proof.
  exact (proj1 (first_escaped_newline_is_expanded "1 row" "id\n7" eq_refl)).
Defined.

Lemma shorten_short_and_long_witness :
  shorten "abc" 10 = "abc" ++ "..." ++ "abc" /\
  exists first middle last,
    "0A1B2C3D4E5F60718293A4B5" = first ++ middle ++ last /\
    len first = 10 /\ len last = 10 /\
    shorten "0A1B2C3D4E5F60718293A4B5" 10 = first ++ "..." ++ last.
Proof.
  assert (H10 : 0 <= 10) by lia.
  split.
  - apply (proj1 (shorten_short_and_long "abc" 10 H10)). cbn. lia.
  - apply (proj2 (shorten_short_and_long "0A1B2C3D4E5F60718293A4B5" 10 H10)).
    cbn. lia.
Defined.

Lemma start_needs_three_fields_witness :
  connects (startBtn_click form0)
  = [{| contract := "0xC0FFEE"; application := "7";
        ethereum := Some "http://eth:8545" |}]
  /\ connects (startBtn_click form1) = [].
Proof.
  split.
  - apply (proj1 (start_needs_three_fields form0)).
    repeat split; discriminate.
  - apply (proj1 (proj2 (start_needs_three_fields form1)
                    (or_intror (or_intror eq_refl)))).
Defined.

Lemma wallet_box_disables_address_witness :
  ethereumDisabled
    (fold_left (fun h c => metamask_change c h) [true; false; true]
       (window_load true form0)) = true.
Proof.
  apply (proj1 (wallet_box_disables_address true [true; false; true] form0 eq_refl)).
  - reflexivity.
  - discriminate.
Defined.

Lemma tips_then_submit_witness :
  Part000.requests
    (Part000.btn_click
       (fold_left (fun g x => Part000.tip_click x g)
          ["SELECT * FROM users"; "SELECT 1"] box0))
  = [Part000.Request "SELECT * FROM users"; Part000.Request "SELECT 1"].
Proof.
  apply (tips_then_submit "SELECT * FROM users" ["SELECT 1"] box0).
  - reflexivity.
  - discriminate.
  - repeat constructor.
Defined.

Lemma start_from_address_witness :
  Part000.connects (Part000.url_start (Some "12") (Some "") form000)
  = [{| Part000.contract := "0xC0FFEE"; Part000.application := "12";
        Part000.ethereum := None; Part000.key := None |}].
Proof.
  apply (proj1 (start_from_address "12" (Some "") form000)); discriminate.
Defined.
